(** * Hardware collection flows (grr/lib/flows/general/hardware.py)

    A shallow embedding of the two flows of [hardware.py], [DumpFlashImage]
    and [DumpACPITable], together with a small model of the flow runner that
    schedules their state handlers.

    Every state handler is a computation in the monad [Flow]: it reads and
    writes the flow's [state] object, appends to the trace of observable
    effects ([Log], [SendReply], outbound calls, AFF4 writes) and may raise a
    Python exception.  The effects a handler performed before raising stay in
    the trace. *)

From stdpp Require Import base option list strings gmap.

(** ** Values exchanged with the client and with sub-flows *)

(** An entry of [DumpACPITableResponse.acpi_tables].  The protobuf is not part
    of this file; only the identity of an entry matters here. *)
Definition ACPITableData : Type := string.

(** The RDF values that travel in responses.  Python is dynamically typed: a
    handler reads attributes off whatever it is given, and reading an attribute
    the value does not have raises [AttributeError].  A path is kept as its
    string; the empty string is the path that Python's [not] takes for false. *)
Inductive Message : Type :=
  | DumpFlashImageResponse (path : string) (logs : list string)
  | DumpACPITableResponse (acpi_tables : list ACPITableData) (logs : list string)
  | StatEntry (aff4path : string)
  | ACPITableValue (table : ACPITableData)
  | OtherValue (payload : string).

(** Arguments of the client actions the flows call. *)
Inductive ClientRequest : Type :=
  | DumpFlashImageRequest (log_level chunk_size : nat) (notify_syslog : bool)
  | DumpACPITableRequest (logging : bool) (table_signature : string)
  | DeleteGRRTempFiles (path : string).

(** Arguments of the sub-flows the flows call. *)
Inductive FlowArgs : Type :=
  | ArtifactCollectorFlowArgs (artifact_list : list string)
                              (store_results_in_aff4 : bool)
  | MultiGetFileArgs (pathspecs : list string).

Inductive Target : Type :=
  | ClientAction (request : ClientRequest)
  | SubFlow (flow_name : string) (flow_args : FlowArgs)
  | LoadComponent (name version : string)
  | SelfState.

(** One outbound request: whom it is for, the [request_data] dictionary that
    comes back with the responses, and the state that handles them. *)
Record Outbound : Type := mkOutbound {
  target : Target;
  out_request_data : gmap string string;
  next_state : string
}.

Inductive Event : Type :=
  | ELog (line : string)
  | ESendReply (value : option Message)
  | ECall (call : Outbound)
  | ECreate (urn : string) (aff4_type : string)
  | ESymlinkSet (urn : string) (symlink_target : string)
  | EAddAll (urn : string) (tables : list ACPITableData)
  | EFlush (urn : string)
  | EClose (urn : string).

(** Modelled from the spec: the [responses] object handed to a state handler
    (spec 3, ResponseEnvelope): success flag, status, payload items, the
    [request_data] of the originating call and, for a client action, the
    payload of the originating request ([responses.request.request.payload]). *)
Record Responses : Type := mkResponses {
  success : bool;
  status : string;
  items : list Message;
  request_data : gmap string string;
  request_payload : option ClientRequest
}.

(** [responses.First()]: the first item, or [None]. *)
Definition First (responses : Responses) : option Message :=
  head (items responses).

Inductive Exn : Type :=
  | FlowError (msg : string)
  | ValueError (msg : string)
  | AttributeError (attr : string)
  | KeyError (key : string).

(** ** The handler monad *)

(** [self.state]: attribute name to value; a stored value may be [None]. *)
Abbreviation FlowState := (gmap string (option Message)).

Inductive Outcome (A : Type) : Type :=
  | Ok (a : A) (st : FlowState)
  | Raise (e : Exn).
Arguments Ok {A} a st.
Arguments Raise {A} e.

Definition Flow (A : Type) : Type := FlowState → list Event * Outcome A.

#[global] Instance Flow_ret : MRet Flow := λ A a st, ([], Ok a st).

#[global] Instance Flow_bind : MBind Flow := λ A B k m st,
  match m st with
  | (t1, Ok a st1) => let '(t2, o) := k a st1 in (t1 ++ t2, o)
  | (t1, Raise e) => (t1, Raise e)
  end.

Definition emit (e : Event) : Flow unit := λ st, ([e], Ok tt st).
Definition raise {A} (e : Exn) : Flow A := λ st, ([], Raise e).
Definition set_state (name : string) (v : option Message) : Flow unit :=
  λ st, ([], Ok tt (<[name := v]> st)).
(** [hasattr(self.state, name)] *)
Definition hasattr_state (name : string) : Flow bool :=
  λ st, ([], Ok (bool_decide (is_Some (st !! name))) st).

(** [for x in xs: body(x)] *)
Fixpoint for_each {A} (xs : list A) (body : A → Flow unit) : Flow unit :=
  match xs with
  | [] => mret tt
  | x :: rest => body x ;; for_each rest body
  end.

(** Modelled from the spec: [with aff4.FACTORY.Create(urn, aff4_type) as fd:
    body] (spec 6, Durable Storage): the object is closed on every way out of
    the block, also when the body raises. *)
Definition with_Create (urn aff4_type : string) (body : Flow unit) : Flow unit :=
  λ st,
    match body st with
    | (t, o) => (ECreate urn aff4_type :: t ++ [EClose urn], o)
    end.

(** An RDFURN object.  The class is not in [hardware.py], which only calls
    its [Add] method on [self.client_id]: the object is taken with that method
    as it is given, the urn it returns for a path component.  The properties
    below hold whatever [Add] computes; only the examples fix one. *)
Record RDFURN : Type := mkRDFURN { urn_string : string; Add : string → string }.

(** The flow object: the client it runs against and its arguments. *)
Record Self (A : Type) : Type := mkSelf { client_id : RDFURN; args : A }.
Arguments mkSelf {A} _ _.
Arguments client_id {A} _.
Arguments args {A} _.

(** *** Runner primitives used by the handlers

    These belong to the flow base classes, which [hardware.py] only imports.
    Each is recorded in the trace as the effect the spec gives it. *)

(** Modelled from the spec: [Log(message)] appends a line to the log of the
    instance and never raises (spec 4.1). *)
Definition Log (line : string) : Flow unit := emit (ELog line).

(** Modelled from the spec: [SendReply(artifact)] emits one artifact to the
    result stream of the instance (spec 4.1). *)
Definition SendReply (value : option Message) : Flow unit := emit (ESendReply value).

(** Modelled from the spec: [CallClient], an asynchronous request to a client
    action with its continuation and request data (spec 6, Remote Agent Call). *)
Definition CallClient (request : ClientRequest) (data : gmap string string)
    (next : string) : Flow unit :=
  emit (ECall (mkOutbound (ClientAction request) data next)).

(** Modelled from the spec: [CallFlow], the invocation of a sub-flow with its
    continuation and request data (spec 6, Sub-workflow Invocation). *)
Definition CallFlow (name : string) (fargs : FlowArgs) (data : gmap string string)
    (next : string) : Flow unit :=
  emit (ECall (mkOutbound (SubFlow name fargs) data next)).

(** Modelled from the spec: [CallState], the self-transition to another state
    of the same flow (spec 4.1). *)
Definition CallState (next : string) : Flow unit :=
  emit (ECall (mkOutbound SelfState ∅ next)).

(** Modelled from the spec: [LoadComponentOnClient] of [LoadComponentMixin]
    (spec 6, Component Activation). *)
Definition LoadComponentOnClient (name version next : string) : Flow unit :=
  emit (ECall (mkOutbound (LoadComponent name version) ∅ next)).

(** *** Attribute access *)

Definition logs_attr (m : Message) : option (list string) :=
  match m with
  | DumpFlashImageResponse _ l | DumpACPITableResponse _ l => Some l
  | _ => None
  end.

Definition getattr {A} (name : string) (field : Message → option A)
    (value : option Message) : Flow A :=
  match value ≫= field with
  | Some a => mret a
  | None => raise (AttributeError name)
  end.

Definition path_attr (m : Message) : option string :=
  match m with DumpFlashImageResponse p _ => Some p | _ => None end.
Definition aff4path_attr (m : Message) : option string :=
  match m with StatEntry p => Some p | _ => None end.
Definition acpi_tables_attr (m : Message) : option (list ACPITableData) :=
  match m with DumpACPITableResponse t _ => Some t | _ => None end.
Definition table_signature_attr (r : ClientRequest) : option string :=
  match r with DumpACPITableRequest _ s => Some s | _ => None end.

(** ** DumpFlashImage *)

Module DumpFlashImageArgs.
Record t : Type := mk {
  component_version : string;
  log_level : nat;
  chunk_size : nat;
  notify_syslog : bool
}.
End DumpFlashImageArgs.

Module DumpFlashImage.
Import DumpFlashImageArgs.
Abbreviation self_t := (Self DumpFlashImageArgs.t).

(** hardware.py, lines 30-36 *)
Definition Start (self : self_t) : Flow unit :=
  LoadComponentOnClient "grr-chipsec-component"
    (component_version (args self)) "CollectDebugInfo".

(** hardware.py, lines 38-45 *)
Definition CollectDebugInfo (self : self_t) (responses : Responses) : Flow unit :=
  CallFlow "ArtifactCollectorFlow"
    (ArtifactCollectorFlowArgs ["LinuxHardwareInfo"] true) ∅ "DumpImage".

(** hardware.py, lines 47-56 *)
Definition DumpImage (self : self_t) (responses : Responses) : Flow unit :=
  set_state "hardware_info" (First responses) ;;
  CallClient
    (DumpFlashImageRequest (log_level (args self)) (chunk_size (args self))
       (notify_syslog (args self)))
    ∅ "CollectImage".

(** hardware.py, lines 58-79.  [hasattr(response, "logs")] is [logs_attr]
    being defined; [responses.First().path] is read once for the test and once
    more in the last branch. *)
Definition CollectImage (self : self_t) (responses : Responses) : Flow unit :=
  for_each (items responses) (λ response,
    match logs_attr response with
    | Some logs => for_each logs Log
    | None => mret tt
    end) ;;
  if negb (success responses) then
    raise (FlowError ("Failed to dump the flash image: " +:+ status responses))
  else
    path ← getattr "path" path_attr (First responses) ;
    if bool_decide (path = "") then
      Log "No path returned. Skipping host." ;;
      CallState "End"
    else
      image_path ← getattr "path" path_attr (First responses) ;
      CallFlow "MultiGetFile" (MultiGetFileArgs [image_path])
        {[ "image_path" := image_path ]} "DeleteTemporaryImage".

(** hardware.py, lines 81-101.  [response.aff4path] is read inside the [with]
    block, after the symlink object has been created. *)
Definition DeleteTemporaryImage (self : self_t) (responses : Responses) : Flow unit :=
  (if negb (success responses) then
     raise (FlowError ("Unable to collect the flash image: " +:+ status responses))
   else mret tt) ;;
  let response := First responses in
  SendReply response ;;
  with_Create (Add (client_id self) "spiflash") "AFF4Symlink" (
    target ← getattr "aff4path" aff4path_attr response ;
    emit (ESymlinkSet (Add (client_id self) "spiflash") target)) ;;
  match request_data responses !! "image_path" with
  | Some image_path =>
      CallClient (DeleteGRRTempFiles image_path) ∅ "TemporaryImageRemoved"
  | None => raise (KeyError "image_path")
  end.

(** hardware.py, lines 103-108 *)
Definition TemporaryImageRemoved (self : self_t) (responses : Responses) : Flow unit :=
  if negb (success responses) then
    raise (FlowError ("Unable to delete the temporary flash image: "
                      +:+ status responses))
  else mret tt.

(** hardware.py, lines 110-113 *)
Definition End (self : self_t) : Flow unit :=
  present ← hasattr_state "image_path" ;
  if (present : bool) then Log "Successfully wrote Flash image." else mret tt.

End DumpFlashImage.

(** ** DumpACPITable *)

Module DumpACPITableArgs.
Record t : Type := mk {
  component_version : string;
  logging : bool;
  table_signature_list : list string
}.

(** hardware.py, lines 119-121: [None] when nothing is raised. *)
Definition Validate (self : t) : option Exn :=
  match table_signature_list self with
  | [] => Some (ValueError "No ACPI table to dump.")
  | _ :: _ => None
  end.
End DumpACPITableArgs.

Module DumpACPITable.
Import DumpACPITableArgs.
Abbreviation self_t := (Self DumpACPITableArgs.t).

(** hardware.py, lines 131-137 *)
Definition Start (self : self_t) : Flow unit :=
  LoadComponentOnClient "grr-chipsec-component"
    (component_version (args self)) "StartCollection".

(** hardware.py, lines 139-147 *)
Definition StartCollection (self : self_t) (responses : Responses) : Flow unit :=
  for_each (table_signature_list (args self)) (λ table_signature,
    CallClient (DumpACPITableRequest (logging (args self)) table_signature)
      ∅ "TableReceived").

(** hardware.py, lines 149-176.  [response.logs] is read without a [hasattr]
    test here; the signature is read before the success flag is tested. *)
Definition TableReceived (self : self_t) (responses : Responses) : Flow unit :=
  for_each (items responses) (λ response,
    logs ← getattr "logs" logs_attr (Some response) ;
    for_each logs Log) ;;
  table_signature ←
    match request_payload responses ≫= table_signature_attr with
    | Some s => mret s
    | None => raise (AttributeError "table_signature")
    end ;
  if negb (success responses) then
    Log ("Error retrieving ACPI table with signature " +:+ table_signature)
  else
    let response := First responses in
    acpi_tables ← getattr "acpi_tables" acpi_tables_attr response ;
    match acpi_tables with
    | [] => mret tt
    | _ :: _ =>
        Log ("Retrieved ACPI table(s) with signature " +:+ table_signature) ;;
        let urn := Add (client_id self)
                     ("devices/chipsec/acpi/tables/" +:+ table_signature) in
        with_Create urn "ACPITableDataCollection" (
          emit (EAddAll urn acpi_tables) ;;
          emit (EFlush urn)) ;;
        for_each acpi_tables (λ acpi_table_response,
          SendReply (Some (ACPITableValue acpi_table_response)))
    end.

End DumpACPITable.

(** ** The flow runner *)

(** Modelled from the spec: what the remote end sends back for one request
    (spec 3, ResponseEnvelope, without the part the runner adds). *)
Record Reply : Type := mkReply {
  reply_success : bool;
  reply_status : string;
  reply_items : list Message
}.

Inductive RunStatus : Type :=
  | Running
  | Completed
  | Failed (e : Exn).

(** Modelled from the spec: one flow instance (spec 2, spec 4.1): its [state]
    object, the requests still awaiting responses, everything it has done so
    far, and the state handlers the runner has invoked, oldest first. *)
Record Instance : Type := mkInstance {
  flow_state : FlowState;
  pending : list Outbound;
  trace : list Event;
  history : list string;
  run_status : RunStatus
}.

Definition calls_of (t : list Event) : list Outbound :=
  omap (λ e, match e with ECall c => Some c | _ => None end) t.

Definition no_responses : Responses := mkResponses true "" [] ∅ None.

(** Modelled from the spec: the responses object the runner builds for a
    continuation.  The [request_data] of the request and its payload come back
    unchanged with the reply (spec 3, "echoed back verbatim"); a [CallState]
    request is answered by the runner itself, successfully and with no item. *)
Definition responses_for (call : Outbound) (reply : Reply) : Responses :=
  match target call with
  | SelfState => mkResponses true "" [] (out_request_data call) None
  | ClientAction request =>
      mkResponses (reply_success reply) (reply_status reply) (reply_items reply)
        (out_request_data call) (Some request)
  | SubFlow _ _ | LoadComponent _ _ =>
      mkResponses (reply_success reply) (reply_status reply) (reply_items reply)
        (out_request_data call) None
  end.

Section Runner.
Context {A : Type}.
(** The flow class: its argument validation and its state handlers by name. *)
Variable validate : A → option Exn.
Variable handler : Self A → string → option (Responses → Flow unit).

(** Modelled from the spec: what the runner does with the result of a state
    handler (spec 4.1, [Dispatch] and "Fatal abort").  The calls the handler
    dispatched join the pending requests; an exception marks the instance
    failed and drops every pending request. *)
Definition absorb (inst : Instance) (name : string)
    (result : list Event * Outcome unit) : Instance :=
  match result with
  | (t, Ok _ st) =>
      mkInstance st (pending inst ++ calls_of t) (trace inst ++ t)
        (history inst ++ [name]) Running
  | (t, Raise e) =>
      mkInstance (flow_state inst) [] (trace inst ++ t)
        (history inst ++ [name]) (Failed e)
  end.

(** Modelled from the spec: running the state handler called [name] on the
    given responses (spec 4.1, [Resume]). *)
Definition RunStateMethod (self : Self A) (name : string)
    (responses : Responses) (inst : Instance) : Instance :=
  match handler self name with
  | None =>
      mkInstance (flow_state inst) [] (trace inst) (history inst)
        (Failed (AttributeError name))
  | Some h => absorb inst name (h responses (flow_state inst))
  end.

Definition is_running (inst : Instance) : bool :=
  match run_status inst with Running => true | _ => false end.

Definition idle (inst : Instance) : bool :=
  is_running inst && bool_decide (pending inst = []).

(** Modelled from the spec: once no request is outstanding the runner enters
    [End], unless [End] is the state that just ran, and the instance is
    complete when still nothing is outstanding (spec 4.1 "Terminal", 4.2). *)
Definition settle (self : Self A) (inst : Instance) : Instance :=
  if idle inst then
    let inst1 :=
      if bool_decide (last (history inst) = Some "End") then inst
      else RunStateMethod self "End" no_responses inst in
    if idle inst1 then
      mkInstance (flow_state inst1) [] (trace inst1) (history inst1) Completed
    else inst1
  else inst.

(** Modelled from the spec: [Start(args)] (spec 4.1): validate the arguments,
    create the empty state and enter the [Start] state. *)
Definition StartFlow (self : Self A) : Exn + Instance :=
  match validate (args self) with
  | Some e => inl e
  | None =>
      inr (settle self
             (RunStateMethod self "Start" no_responses
                (mkInstance ∅ [] [] [] Running)))
  end.

(** Modelled from the spec: the arrival of the reply to the [idx]-th pending
    request (spec 4.1 [Resume], spec 5).  A reply for an instance that has
    terminated, or for no pending request, is ignored. *)
Definition deliver (self : Self A) (inst : Instance) (arrival : nat * Reply)
    : Instance :=
  let '(idx, reply) := arrival in
  if is_running inst then
    match pending inst !! idx with
    | None => inst
    | Some call =>
        settle self
          (RunStateMethod self (next_state call) (responses_for call reply)
             (mkInstance (flow_state inst) (delete idx (pending inst))
                (trace inst) (history inst) Running))
    end
  else inst.

Definition deliver_all (self : Self A) (inst : Instance)
    (arrivals : list (nat * Reply)) : Instance :=
  foldl (deliver self) inst arrivals.

End Runner.

(** The replies of a flow with one request in flight at a time arrive at the
    head of the pending list.  The runner's own answer to a [CallState]
    request takes its turn in the same list; its content is not looked at. *)
Definition in_order (replies : list Reply) : list (nat * Reply) :=
  (λ r, (0, r)) <$> replies.

(** *** Observations on a trace *)

Definition log_lines (t : list Event) : list string :=
  omap (λ e, match e with ELog l => Some l | _ => None end) t.
Definition replies_sent (t : list Event) : list (option Message) :=
  omap (λ e, match e with ESendReply v => Some v | _ => None end) t.
Definition symlink_updates (t : list Event) : list (string * string) :=
  omap (λ e, match e with ESymlinkSet u v => Some (u, v) | _ => None end) t.
Definition durable_writes (t : list Event) : list (string * list ACPITableData) :=
  omap (λ e, match e with EAddAll u v => Some (u, v) | _ => None end) t.

(** [sub] occurs in [s]. *)
Definition contains (sub s : string) : Prop :=
  ∃ pre post, s = pre +:+ sub +:+ post.

(** *** The two flow classes *)

Module FlashFlow.
Import DumpFlashImage.

Definition validate (a : DumpFlashImageArgs.t) : option Exn := None.

Definition handler (self : self_t) (name : string)
    : option (Responses → Flow unit) :=
  if bool_decide (name = "Start") then Some (λ _, Start self)
  else if bool_decide (name = "CollectDebugInfo") then Some (CollectDebugInfo self)
  else if bool_decide (name = "DumpImage") then Some (DumpImage self)
  else if bool_decide (name = "CollectImage") then Some (CollectImage self)
  else if bool_decide (name = "DeleteTemporaryImage")
       then Some (DeleteTemporaryImage self)
  else if bool_decide (name = "TemporaryImageRemoved")
       then Some (TemporaryImageRemoved self)
  else if bool_decide (name = "End") then Some (λ _, End self)
  else None.

Definition start (self : self_t) : Exn + Instance := StartFlow validate handler self.
Definition step (self : self_t) := deliver handler self.

(** The instance after the given replies have arrived, one after the other. *)
Definition run (self : self_t) (replies : list Reply) : option Instance :=
  match start self with
  | inl _ => None
  | inr inst => Some (deliver_all handler self inst (in_order replies))
  end.
End FlashFlow.

Module ACPIFlow.
Import DumpACPITable.

(** [DumpACPITable] defines no [End]; the inherited one does nothing that is
    observed here. *)
Definition handler (self : self_t) (name : string)
    : option (Responses → Flow unit) :=
  if bool_decide (name = "Start") then Some (λ _, Start self)
  else if bool_decide (name = "StartCollection") then Some (StartCollection self)
  else if bool_decide (name = "TableReceived") then Some (TableReceived self)
  else if bool_decide (name = "End") then Some (λ _, mret tt)
  else None.

Definition start (self : self_t) : Exn + Instance :=
  StartFlow DumpACPITableArgs.Validate handler self.
Definition step (self : self_t) := deliver handler self.

Definition run (self : self_t) (arrivals : list (nat * Reply)) : Exn + Instance :=
  match start self with
  | inl e => inl e
  | inr inst => inr (deliver_all handler self inst arrivals)
  end.
End ACPIFlow.

(** ** Named calls, traces, instances and examples

    The calls the handlers dispatch, the traces and instances the runs go
    through, and the examples the properties are checked at. *)

(** The log lines carried by the items of a response, in order. *)
Definition carried_logs (l : list Message) : list string :=
  l ≫= λ m, default [] (logs_attr m).

Section FlashCalls.
Import DumpFlashImage.
Variable self : self_t.

Definition transfer_call (p : string) : Outbound :=
  mkOutbound (SubFlow "MultiGetFile" (MultiGetFileArgs [p]))
    {[ "image_path" := p ]} "DeleteTemporaryImage".
Definition cleanup_call (p : string) : Outbound :=
  mkOutbound (ClientAction (DeleteGRRTempFiles p)) ∅ "TemporaryImageRemoved".
Definition end_call : Outbound := mkOutbound SelfState ∅ "End".
Definition spiflash : string := Add (client_id self) "spiflash".

End FlashCalls.

Section FlashInstances.
Import DumpFlashImage DumpFlashImageArgs.
Variable self : self_t.

Definition load_call : Outbound :=
  mkOutbound
    (LoadComponent "grr-chipsec-component" (component_version (args self)))
    ∅ "CollectDebugInfo".
Definition debug_call : Outbound :=
  mkOutbound
    (SubFlow "ArtifactCollectorFlow"
       (ArtifactCollectorFlowArgs ["LinuxHardwareInfo"] true))
    ∅ "DumpImage".
Definition dump_call : Outbound :=
  mkOutbound
    (ClientAction
       (DumpFlashImageRequest (log_level (args self)) (chunk_size (args self))
          (notify_syslog (args self))))
    ∅ "CollectImage".

Definition started : Instance :=
  mkInstance ∅ [load_call] [ECall load_call] ["Start"] Running.

(** The instance that waits for the reply to the dump request. *)
Definition dumping (hardware_info : option Message) : Instance :=
  mkInstance (<["hardware_info" := hardware_info]> ∅) [dump_call]
    [ECall load_call; ECall debug_call; ECall dump_call]
    ["Start"; "CollectDebugInfo"; "DumpImage"] Running.

End FlashInstances.

(** The states whose handlers abort the flow on a failed reply. *)
Definition aborting_states : list string :=
  ["CollectImage"; "DeleteTemporaryImage"; "TemporaryImageRemoved"].

(** Calls of [MultiGetFile], the transfer sub-flow. *)
Definition is_transfer (c : Outbound) : bool :=
  match target c with
  | SubFlow name _ => bool_decide (name = "MultiGetFile")
  | _ => false
  end.

Section FlashRunShapes.
Import DumpFlashImage.
Variable self : self_t.

Definition debugging : Instance :=
  mkInstance ∅ [debug_call] [ECall (load_call self); ECall debug_call]
    ["Start"; "CollectDebugInfo"] Running.

Definition dump_state (r2 : Reply) : FlowState :=
  <["hardware_info" := head (reply_items r2)]> ∅.

(** The trace up to and including the log lines forwarded by [CollectImage]. *)
Definition dump_trace (r3 : Reply) : list Event :=
  [ECall (load_call self); ECall debug_call; ECall (dump_call self)]
    ++ (ELog <$> carried_logs (reply_items r3)).
Definition skip_trace (r3 : Reply) : list Event :=
  dump_trace r3 ++ [ELog "No path returned. Skipping host."; ECall end_call].
Definition transfer_trace (r3 : Reply) (p : string) : list Event :=
  dump_trace r3 ++ [ECall (transfer_call p)].
Definition collect_trace (r3 : Reply) (p : string) (r4 : Reply) (a : string)
    : list Event :=
  transfer_trace r3 p
    ++ [ESendReply (head (reply_items r4));
        ECreate (spiflash self) "AFF4Symlink";
        ESymlinkSet (spiflash self) a; EClose (spiflash self);
        ECall (cleanup_call p)].

Definition collect_history : list string :=
  ["Start"; "CollectDebugInfo"; "DumpImage"; "CollectImage"].
Definition delete_history : list string :=
  collect_history ++ ["DeleteTemporaryImage"].

(** The instance reached after each possible sequence of replies. *)
Inductive flash_run : list Reply → Instance → Prop :=
  | run_started : flash_run [] (started self)
  | run_debugging r1 : flash_run [r1] debugging
  | run_dump r1 r2 : flash_run [r1; r2] (dumping self (head (reply_items r2)))
  | run_dump_failed r1 r2 r3 rest :
      reply_success r3 = false →
      flash_run (r1 :: r2 :: r3 :: rest)
        (mkInstance (dump_state r2) [] (dump_trace r3) collect_history
           (Failed (FlowError ("Failed to dump the flash image: "
                               +:+ reply_status r3))))
  | run_dump_no_attribute r1 r2 r3 rest :
      reply_success r3 = true →
      head (reply_items r3) ≫= path_attr = None →
      flash_run (r1 :: r2 :: r3 :: rest)
        (mkInstance (dump_state r2) [] (dump_trace r3) collect_history
           (Failed (AttributeError "path")))
  | run_skipping r1 r2 r3 :
      reply_success r3 = true →
      head (reply_items r3) ≫= path_attr = Some "" →
      flash_run [r1; r2; r3]
        (mkInstance (dump_state r2) [end_call] (skip_trace r3) collect_history
           Running)
  | run_skipped r1 r2 r3 r4 rest :
      reply_success r3 = true →
      head (reply_items r3) ≫= path_attr = Some "" →
      flash_run (r1 :: r2 :: r3 :: r4 :: rest)
        (mkInstance (dump_state r2) [] (skip_trace r3)
           (collect_history ++ ["End"]) Completed)
  | run_transferring r1 r2 r3 p :
      reply_success r3 = true →
      head (reply_items r3) ≫= path_attr = Some p → p ≠ "" →
      flash_run [r1; r2; r3]
        (mkInstance (dump_state r2) [transfer_call p] (transfer_trace r3 p)
           collect_history Running)
  | run_transfer_failed r1 r2 r3 p r4 rest :
      reply_success r3 = true →
      head (reply_items r3) ≫= path_attr = Some p → p ≠ "" →
      reply_success r4 = false →
      flash_run (r1 :: r2 :: r3 :: r4 :: rest)
        (mkInstance (dump_state r2) [] (transfer_trace r3 p) delete_history
           (Failed (FlowError ("Unable to collect the flash image: "
                               +:+ reply_status r4))))
  | run_transfer_no_attribute r1 r2 r3 p r4 rest :
      reply_success r3 = true →
      head (reply_items r3) ≫= path_attr = Some p → p ≠ "" →
      reply_success r4 = true →
      head (reply_items r4) ≫= aff4path_attr = None →
      flash_run (r1 :: r2 :: r3 :: r4 :: rest)
        (mkInstance (dump_state r2) []
           (transfer_trace r3 p
              ++ [ESendReply (head (reply_items r4));
                  ECreate (spiflash self) "AFF4Symlink";
                  EClose (spiflash self)])
           delete_history (Failed (AttributeError "aff4path")))
  | run_cleaning r1 r2 r3 p r4 a :
      reply_success r3 = true →
      head (reply_items r3) ≫= path_attr = Some p → p ≠ "" →
      reply_success r4 = true →
      head (reply_items r4) ≫= aff4path_attr = Some a →
      flash_run [r1; r2; r3; r4]
        (mkInstance (dump_state r2) [cleanup_call p] (collect_trace r3 p r4 a)
           delete_history Running)
  | run_cleanup_failed r1 r2 r3 p r4 a r5 rest :
      reply_success r3 = true →
      head (reply_items r3) ≫= path_attr = Some p → p ≠ "" →
      reply_success r4 = true →
      head (reply_items r4) ≫= aff4path_attr = Some a →
      reply_success r5 = false →
      flash_run (r1 :: r2 :: r3 :: r4 :: r5 :: rest)
        (mkInstance (dump_state r2) [] (collect_trace r3 p r4 a)
           (delete_history ++ ["TemporaryImageRemoved"])
           (Failed (FlowError ("Unable to delete the temporary flash image: "
                               +:+ reply_status r5))))
  | run_finished r1 r2 r3 p r4 a r5 rest :
      reply_success r3 = true →
      head (reply_items r3) ≫= path_attr = Some p → p ≠ "" →
      reply_success r4 = true →
      head (reply_items r4) ≫= aff4path_attr = Some a →
      reply_success r5 = true →
      flash_run (r1 :: r2 :: r3 :: r4 :: r5 :: rest)
        (mkInstance (dump_state r2) [] (collect_trace r3 p r4 a)
           (delete_history ++ ["TemporaryImageRemoved"; "End"]) Completed).

End FlashRunShapes.

(** The paths of the [DeleteGRRTempFiles] calls in a trace. *)
Definition cleanup_paths (t : list Event) : list string :=
  omap (λ c, match target c with
             | ClientAction (DeleteGRRTempFiles q) => Some q
             | _ => None
             end) (calls_of t).

(** The urn of a client whose [Add] appends the component after a slash. *)
Definition example_client : RDFURN :=
  mkRDFURN "aff4:/C.1000000000000000"
    (λ component, "aff4:/C.1000000000000000" +:+ "/" +:+ component).

(** A flow object and replies to run it on. *)
Definition example_flash : DumpFlashImage.self_t :=
  mkSelf example_client (DumpFlashImageArgs.mk "0.1" 2 4096 false).
Definition reply_ok (l : list Message) : Reply := mkReply true "" l.
Definition reply_failed (s : string) : Reply := mkReply false s [].

(** A dump reply with an empty path whose item carries one log line. *)
Definition noisy_empty_path : Reply :=
  reply_ok [DumpFlashImageResponse "" ["chipsec: SPI controller not found"]].

(** A complete, successful collection of the image at [/tmp/spi.bin]. *)
Definition successful_collection : list Reply :=
  [reply_ok []; reply_ok [OtherValue "LinuxHardwareInfo"];
   reply_ok [DumpFlashImageResponse "/tmp/spi.bin" []];
   reply_ok [StatEntry "aff4:/C.1000000000000000/fs/os/tmp/spi.bin"];
   reply_ok []].

(** A dump reply with a path, and a transfer reply that carries the file. *)
Definition dumped_reply : Reply :=
  reply_ok [DumpFlashImageResponse "/tmp/spi.bin" []].
Definition transferred_reply : Reply :=
  reply_ok [StatEntry "aff4:/C.1000000000000000/fs/os/tmp/spi.bin"].

(** Every item has a [logs] attribute, as the responses of the chipsec client
    actions do. *)
Definition with_logs (l : list Message) : Prop :=
  Forall (λ m, is_Some (logs_attr m)) l.

Section ACPICalls.
Import DumpACPITable DumpACPITableArgs.
Variable self : self_t.

Definition fetch_call (table_signature : string) : Outbound :=
  mkOutbound
    (ClientAction (DumpACPITableRequest (logging (args self)) table_signature))
    ∅ "TableReceived".

Definition table_urn (table_signature : string) : string :=
  Add (client_id self) ("devices/chipsec/acpi/tables/" +:+ table_signature).

(** What [TableReceived] does with a non-empty list of tables. *)
Definition store_trace (table_signature : string) (tables : list ACPITableData)
    : list Event :=
  [ELog ("Retrieved ACPI table(s) with signature " +:+ table_signature);
   ECreate (table_urn table_signature) "ACPITableDataCollection";
   EAddAll (table_urn table_signature) tables;
   EFlush (table_urn table_signature);
   EClose (table_urn table_signature)]
    ++ ((λ t, ESendReply (Some (ACPITableValue t))) <$> tables).

Definition error_line (table_signature : string) : string :=
  "Error retrieving ACPI table with signature " +:+ table_signature.

End ACPICalls.

(** What a well-behaved client sends for a [DumpACPITable] request: items that
    have logs and, on success, a [DumpACPITableResponse] first. *)
Definition acpi_reply (reply : Reply) : Prop :=
  with_logs (reply_items reply)
  ∧ (reply_success reply = true →
     ∃ tables logs rest,
       reply_items reply = DumpACPITableResponse tables logs :: rest).

(** An arrival order that answers each of [n] pending requests exactly once,
    with replies [TableReceived] handles without raising: each index points
    into the requests still pending when it arrives, and each reply is an
    [acpi_reply]. *)
Fixpoint all_arrive (n : nat) (arrivals : list (nat * Reply)) : Prop :=
  match arrivals with
  | [] => n = 0
  | (i, reply) :: rest => i < n ∧ acpi_reply reply ∧ all_arrive (pred n) rest
  end.

Section ACPIInstances.
Import DumpACPITable DumpACPITableArgs.
Variable self : self_t.

Definition acpi_load_call : Outbound :=
  mkOutbound
    (LoadComponent "grr-chipsec-component" (component_version (args self)))
    ∅ "StartCollection".

Definition acpi_started : Instance :=
  mkInstance ∅ [acpi_load_call] [ECall acpi_load_call] ["Start"] Running.

(** The instance after [StartCollection]: one pending request per signature. *)
Definition collecting : Instance :=
  mkInstance ∅ (fetch_call self <$> table_signature_list (args self))
    (ECall acpi_load_call
       :: (ECall ∘ fetch_call self <$> table_signature_list (args self)))
    ["Start"; "StartCollection"] Running.

(** What [TableReceived] adds to the trace for the reply to the request for
    [table_signature]. *)
Definition received_trace (table_signature : string) (reply : Reply)
    : list Event :=
  (ELog <$> carried_logs (reply_items reply))
    ++ (if reply_success reply then
          match head (reply_items reply) ≫= acpi_tables_attr with
          | Some (t :: ts) => store_trace self table_signature (t :: ts)
          | _ => []
          end
        else [ELog (error_line table_signature)]).

End ACPIInstances.

(** A flow object for the signatures FACP and DSDT, and replies for them. *)
Definition example_acpi : DumpACPITable.self_t :=
  mkSelf example_client (DumpACPITableArgs.mk "0.1" true ["FACP"; "DSDT"]).
Definition facp_failed : Reply := reply_failed "table not found".
Definition dsdt_fetched : Reply :=
  reply_ok [DumpACPITableResponse ["DSDT table bytes"] ["chipsec: read DSDT"]].

(** A failed reply that carries an item without a [logs] attribute. *)
Definition logless_failed : Reply :=
  mkReply false "table not found" [OtherValue "x"].

(** A flow object with no signature at all. *)
Definition empty_acpi : DumpACPITable.self_t :=
  mkSelf example_client (DumpACPITableArgs.mk "0.1" true []).

(** The indices alone of such an arrival order: each of [n] pending requests
    is answered exactly once. *)
Fixpoint arrival_order (n : nat) (arrivals : list (nat * Reply)) : Prop :=
  match arrivals with
  | [] => n = 0
  | (i, _) :: rest => i < n ∧ arrival_order (pred n) rest
  end.

(** The signature each arrival answers, paired with its reply, in the order of
    arrival: the [idx]-th signature still unanswered, which then leaves the
    list.  An arrival that points at no pending request answers nothing. *)
Fixpoint answered (signatures : list string) (arrivals : list (nat * Reply))
    : list (string * Reply) :=
  match arrivals with
  | [] => []
  | (idx, reply) :: rest =>
      match signatures !! idx with
      | Some s => (s, reply) :: answered (delete idx signatures) rest
      | None => answered signatures rest
      end
  end.

(** * Properties *)

(** ** The handler monad *)

Lemma bind_ok {A B} (m : Flow A) (k : A → Flow B) st t a st1 :
  m st = (t, Ok a st1) → (m ≫= k) st = (t ++ (k a st1).1, (k a st1).2).
Proof.
  intros Hm. unfold mbind, Flow_bind. rewrite Hm. by destruct (k a st1).
Qed.

Lemma bind_raise {A B} (m : Flow A) (k : A → Flow B) st t e :
  m st = (t, Raise e) → (m ≫= k) st = (t, Raise e).
Proof. intros Hm. unfold mbind, Flow_bind. by rewrite Hm. Qed.

Lemma bind_ret {A B} (a : A) (k : A → Flow B) st : (mret a ≫= k) st = k a st.
Proof. unfold mbind, Flow_bind, mret, Flow_ret. by destruct (k a st). Qed.

Lemma for_each_emit {A} (f : A → Event) (xs : list A) st :
  for_each xs (λ x, emit (f x)) st = (f <$> xs, Ok tt st).
Proof.
  induction xs as [|x xs IH]; [done|].
  cbn [for_each]. erewrite bind_ok by reflexivity. by rewrite IH.
Qed.

Lemma forward_logs_flash (l : list Message) st :
  for_each l (λ response,
    match logs_attr response with
    | Some logs => for_each logs Log
    | None => mret tt
    end) st = (ELog <$> carried_logs l, Ok tt st).
Proof.
  induction l as [|m l IH]; [done|].
  cbn [for_each]. unfold carried_logs. cbn [mbind list_bind]. rewrite fmap_app.
  destruct (logs_attr m) as [logs|] eqn:Hm; cbn [default].
  - erewrite bind_ok by apply (for_each_emit ELog). by rewrite IH.
  - erewrite bind_ok by reflexivity. by rewrite IH.
Qed.

Lemma string_app_nil_r (s : string) : s +:+ "" = s.
Proof.
  induction s as [|c s IH]; [done|].
  change (String c (s +:+ "") = String c s). by rewrite IH.
Qed.

Lemma contains_suffix (pre s : string) : contains s (pre +:+ s).
Proof. exists pre, ""%string. by rewrite string_app_nil_r. Qed.

(** ** The state handlers of DumpFlashImage, case by case *)

Section FlashHandlers.
Import DumpFlashImage.
Variable self : self_t.

Lemma CollectImage_failure r st :
  success r = false →
  CollectImage self r st =
    (ELog <$> carried_logs (items r),
     Raise (FlowError ("Failed to dump the flash image: " +:+ status r))).
Proof.
  intros Hs. unfold CollectImage.
  erewrite bind_ok by apply forward_logs_flash.
  rewrite Hs. cbn. by rewrite app_nil_r.
Qed.

Lemma CollectImage_no_attribute r st :
  success r = true → First r ≫= path_attr = None →
  CollectImage self r st =
    (ELog <$> carried_logs (items r), Raise (AttributeError "path")).
Proof.
  intros Hs Hp. unfold CollectImage.
  erewrite bind_ok by apply forward_logs_flash.
  rewrite Hs. unfold getattr. rewrite Hp. cbn. by rewrite app_nil_r.
Qed.

Lemma CollectImage_no_path r st :
  success r = true → First r ≫= path_attr = Some "" →
  CollectImage self r st =
    ((ELog <$> carried_logs (items r))
       ++ [ELog "No path returned. Skipping host."; ECall end_call],
     Ok tt st).
Proof.
  intros Hs Hp. unfold CollectImage.
  erewrite bind_ok by apply forward_logs_flash.
  rewrite Hs. unfold getattr. rewrite Hp. done.
Qed.

Lemma CollectImage_path r st p :
  success r = true → First r ≫= path_attr = Some p → p ≠ "" →
  CollectImage self r st =
    ((ELog <$> carried_logs (items r)) ++ [ECall (transfer_call p)], Ok tt st).
Proof.
  intros Hs Hp Hne. unfold CollectImage.
  erewrite bind_ok by apply forward_logs_flash.
  rewrite Hs. unfold getattr. rewrite Hp. cbn [negb].
  rewrite !bind_ret, bool_decide_eq_false_2 by done. by rewrite bind_ret.
Qed.

Lemma DeleteTemporaryImage_failure r st :
  success r = false →
  DeleteTemporaryImage self r st =
    ([], Raise (FlowError ("Unable to collect the flash image: " +:+ status r))).
Proof. intros Hs. unfold DeleteTemporaryImage. by rewrite Hs. Qed.

Lemma DeleteTemporaryImage_no_attribute r st :
  success r = true → First r ≫= aff4path_attr = None →
  DeleteTemporaryImage self r st =
    ([ESendReply (First r); ECreate (spiflash self) "AFF4Symlink";
      EClose (spiflash self)],
     Raise (AttributeError "aff4path")).
Proof.
  intros Hs Hp. unfold DeleteTemporaryImage, getattr. rewrite Hs, Hp. done.
Qed.

Lemma DeleteTemporaryImage_success r st a :
  success r = true → First r ≫= aff4path_attr = Some a →
  DeleteTemporaryImage self r st =
    match request_data r !! "image_path" with
    | Some p =>
        ([ESendReply (First r); ECreate (spiflash self) "AFF4Symlink";
          ESymlinkSet (spiflash self) a; EClose (spiflash self);
          ECall (cleanup_call p)],
         Ok tt st)
    | None =>
        ([ESendReply (First r); ECreate (spiflash self) "AFF4Symlink";
          ESymlinkSet (spiflash self) a; EClose (spiflash self)],
         Raise (KeyError "image_path"))
    end.
Proof.
  intros Hs Hp. unfold DeleteTemporaryImage, getattr. rewrite Hs, Hp.
  by destruct (request_data r !! "image_path").
Qed.

Lemma TemporaryImageRemoved_failure r st :
  success r = false →
  TemporaryImageRemoved self r st =
    ([], Raise (FlowError ("Unable to delete the temporary flash image: "
                           +:+ status r))).
Proof. intros Hs. unfold TemporaryImageRemoved. by rewrite Hs. Qed.

Lemma TemporaryImageRemoved_success r st :
  success r = true → TemporaryImageRemoved self r st = ([], Ok tt st).
Proof. intros Hs. unfold TemporaryImageRemoved. by rewrite Hs. Qed.

Lemma End_without_image_path st :
  st !! "image_path" = None → End self st = ([], Ok tt st).
Proof.
  intros Hst. unfold End, hasattr_state, mbind, Flow_bind.
  rewrite Hst. by rewrite bool_decide_eq_false_2 by (by intros [? ?]).
Qed.

End FlashHandlers.

(** ** The runner *)

Section RunnerFacts.
Context {A : Type}.
Variable validate : A → option Exn.
Variable handler : Self A → string → option (Responses → Flow unit).
Variable self : Self A.

Lemma deliver_terminated inst arrival :
  run_status inst ≠ Running → deliver handler self inst arrival = inst.
Proof.
  intros Hst. destruct arrival as [idx reply]. unfold deliver, is_running.
  by destruct (run_status inst).
Qed.

Lemma deliver_all_terminated inst arrivals :
  run_status inst ≠ Running → deliver_all handler self inst arrivals = inst.
Proof.
  intros Hst. induction arrivals as [|a l IH]; [done|].
  unfold deliver_all in *. cbn [foldl]. by rewrite deliver_terminated.
Qed.

Lemma deliver_all_cons inst a l :
  deliver_all handler self inst (a :: l)
  = deliver_all handler self (deliver handler self inst a) l.
Proof. done. Qed.

Lemma deliver_eq inst idx reply call h :
  run_status inst = Running →
  pending inst !! idx = Some call →
  handler self (next_state call) = Some h →
  deliver handler self inst (idx, reply)
  = settle handler self
      (absorb
         (mkInstance (flow_state inst) (delete idx (pending inst)) (trace inst)
            (history inst) Running)
         (next_state call) (h (responses_for call reply) (flow_state inst))).
Proof.
  intros Hst Hcall Hh. unfold deliver, is_running, RunStateMethod.
  by rewrite Hst, Hcall, Hh.
Qed.

Lemma settle_not_idle inst : idle inst = false → settle handler self inst = inst.
Proof. intros Hi. unfold settle. by rewrite Hi. Qed.

Lemma idle_failed st p t h e : idle (mkInstance st p t h (Failed e)) = false.
Proof. done. Qed.

Lemma idle_pending st c p t h s : idle (mkInstance st (c :: p) t h s) = false.
Proof. unfold idle. cbn. by rewrite andb_false_r. Qed.

End RunnerFacts.

(** ** Runs of DumpFlashImage *)

Section FlashRuns.
Import DumpFlashImage DumpFlashImageArgs.
Variable self : self_t.

Lemma start_eq : FlashFlow.start self = inr (started self).
Proof. reflexivity. Qed.

Lemma run_nil : FlashFlow.run self [] = Some (started self).
Proof. reflexivity. Qed.

Lemma run_dumping r1 r2 rest :
  FlashFlow.run self (r1 :: r2 :: rest)
  = Some (deliver_all FlashFlow.handler self (dumping self (head (reply_items r2)))
            (in_order rest)).
Proof. reflexivity. Qed.

End FlashRuns.

Lemma in_order_cons r l : in_order (r :: l) = (0, r) :: in_order l.
Proof. done. Qed.

Lemma responses_for_remote call reply :
  target call ≠ SelfState →
  success (responses_for call reply) = reply_success reply
  ∧ status (responses_for call reply) = reply_status reply
  ∧ items (responses_for call reply) = reply_items reply.
Proof. unfold responses_for. by destruct (target call). Qed.

Lemma responses_for_request_data call reply :
  request_data (responses_for call reply) = out_request_data call.
Proof. unfold responses_for. by destruct (target call). Qed.

Lemma calls_of_logs (l : list string) : calls_of (ELog <$> l) = [].
Proof. by induction l. Qed.

Lemma calls_of_app t1 t2 : calls_of (t1 ++ t2) = calls_of t1 ++ calls_of t2.
Proof. apply omap_app. Qed.

(** A failed reply handled in one of the three states raises [FlowError] with
    the status in its message, after dispatching nothing. *)
Lemma aborting_handler (self : DumpFlashImage.self_t) name r st :
  name ∈ aborting_states → success r = false →
  ∃ h t msg,
    FlashFlow.handler self name = Some h
    ∧ h r st = (t, Raise (FlowError msg))
    ∧ contains (status r) msg ∧ calls_of t = [].
Proof.
  intros Hin Hs. unfold aborting_states in Hin.
  repeat (apply elem_of_cons in Hin as [->|Hin]); [| | |by apply elem_of_nil in Hin].
  - eexists _, _, _. split; [reflexivity|].
    split; [by apply CollectImage_failure|].
    split; [apply contains_suffix | apply calls_of_logs].
  - eexists _, _, _. split; [reflexivity|].
    split; [by apply DeleteTemporaryImage_failure|].
    split; [apply contains_suffix | done].
  - eexists _, _, _. split; [reflexivity|].
    split; [by apply TemporaryImageRemoved_failure|].
    split; [apply contains_suffix | done].
Qed.

(** C1.  A reply with [success = false] that reaches [CollectImage],
    [DeleteTemporaryImage] or [TemporaryImageRemoved] makes the whole instance
    fail with a [FlowError] whose message contains the reported status; the
    failing handler dispatches nothing and no later arrival changes the failed
    instance.  In a run whose dump reply failed, no [MultiGetFile] call is ever
    dispatched, whatever arrives afterwards. *)
Theorem flash_failed_reply_aborts (self : DumpFlashImage.self_t) :
  (∀ inst idx call reply,
     run_status inst = Running →
     pending inst !! idx = Some call →
     target call ≠ SelfState →
     next_state call ∈ aborting_states →
     reply_success reply = false →
     ∃ msg,
       let inst' := FlashFlow.step self inst (idx, reply) in
       run_status inst' = Failed (FlowError msg)
       ∧ contains (reply_status reply) msg
       ∧ pending inst' = []
       ∧ calls_of (trace inst') = calls_of (trace inst)
       ∧ ∀ arrivals, deliver_all FlashFlow.handler self inst' arrivals = inst')
  ∧ (∀ r1 r2 r3 rest,
       reply_success r3 = false →
       ∃ inst msg,
         FlashFlow.run self (r1 :: r2 :: r3 :: rest) = Some inst
         ∧ run_status inst = Failed (FlowError msg)
         ∧ contains (reply_status r3) msg
         ∧ filter is_transfer (calls_of (trace inst)) = []).
Proof.
  assert (Hstep : ∀ inst idx call reply,
     run_status inst = Running →
     pending inst !! idx = Some call →
     target call ≠ SelfState →
     next_state call ∈ aborting_states →
     reply_success reply = false →
     ∃ msg t,
       FlashFlow.step self inst (idx, reply)
       = mkInstance (flow_state inst) [] (trace inst ++ t)
           (history inst ++ [next_state call]) (Failed (FlowError msg))
       ∧ contains (reply_status reply) msg ∧ calls_of t = []).
  { intros inst idx call reply Hrun Hcall Hremote Hin Hfail.
    destruct (responses_for_remote call reply Hremote) as (Hs & Hst & _).
    rewrite <- Hs in Hfail.
    destruct (aborting_handler self _ _ (flow_state inst) Hin Hfail)
      as (h & t & msg & Hh & Hres & Hmsg & Hcalls).
    exists msg, t. unfold FlashFlow.step.
    rewrite (deliver_eq _ _ _ _ _ _ h Hrun Hcall Hh), Hres. cbn [absorb].
    rewrite settle_not_idle by apply idle_failed.
    by rewrite <- Hst. }
  split.
  - intros inst idx call reply Hrun Hcall Hremote Hin Hfail.
    destruct (Hstep inst idx call reply Hrun Hcall Hremote Hin Hfail)
      as (msg & t & Heq & Hmsg & Hcalls).
    exists msg. cbn zeta. rewrite Heq. cbn [run_status pending trace].
    repeat split; [done| |].
    + by rewrite calls_of_app, Hcalls, app_nil_r.
    + intros arrivals. by apply deliver_all_terminated.
  - intros r1 r2 r3 rest Hfail.
    rewrite run_dumping, in_order_cons, deliver_all_cons.
    destruct (Hstep (dumping self (head (reply_items r2))) 0 (dump_call self) r3)
      as (msg & t & Heq & Hmsg & Hcalls); [done..| |done|].
    { apply list_elem_of_here. }
    unfold FlashFlow.step in Heq. rewrite Heq.
    rewrite deliver_all_terminated by done.
    eexists _, msg. split; [reflexivity|]. cbn [run_status trace dumping].
    repeat split; [done|].
    by rewrite calls_of_app, Hcalls.
Qed.

(** ** DumpFlashImage, one arrival at a time *)

Section FlashSteps.
Import DumpFlashImage.
Variable self : self_t.
Variable st : FlowState.
Hypothesis no_image_path : st !! "image_path" = None.

Lemma settle_flash_end t h :
  last h ≠ Some "End" →
  settle FlashFlow.handler self (mkInstance st [] t h Running)
  = mkInstance st [] t (h ++ ["End"]) Completed.
Proof.
  intros Hlast. unfold settle. cbn [idle is_running run_status pending andb].
  rewrite bool_decide_eq_true_2 by done. cbn [history].
  rewrite bool_decide_eq_false_2 by done.
  unfold RunStateMethod.
  change (FlashFlow.handler self "End") with (Some (λ _ : Responses, End self)).
  cbn [flow_state]. rewrite End_without_image_path by done.
  cbn [absorb pending trace history flow_state calls_of omap app].
  cbn [idle is_running run_status pending andb].
  rewrite bool_decide_eq_true_2 by done. cbn. by rewrite app_nil_r.
Qed.

Lemma remote_responses call r :
  target call ≠ SelfState →
  responses_for call r
  = mkResponses (reply_success r) (reply_status r) (reply_items r)
      (out_request_data call)
      (match target call with ClientAction q => Some q | _ => None end).
Proof. unfold responses_for. by destruct (target call). Qed.

Lemma step_dump_no_path hw_call t h r :
  next_state hw_call = "CollectImage" → target hw_call ≠ SelfState →
  reply_success r = true → head (reply_items r) ≫= path_attr = Some "" →
  FlashFlow.step self (mkInstance st [hw_call] t h Running) (0, r)
  = mkInstance st [end_call]
      (t ++ (ELog <$> carried_logs (reply_items r))
         ++ [ELog "No path returned. Skipping host."; ECall end_call])
      (h ++ ["CollectImage"]) Running.
Proof.
  intros Hn Ht Hs Hp. unfold FlashFlow.step.
  erewrite deliver_eq; [|done|done|by rewrite Hn].
  rewrite remote_responses by done.
  rewrite CollectImage_no_path by done.
  cbn [absorb pending trace history flow_state delete].
  rewrite calls_of_app, calls_of_logs.
  cbn [items list_delete app calls_of omap].
  rewrite settle_not_idle by apply idle_pending. by rewrite Hn.
Qed.

Lemma step_dump_path hw_call t h r p :
  next_state hw_call = "CollectImage" → target hw_call ≠ SelfState →
  reply_success r = true → head (reply_items r) ≫= path_attr = Some p →
  p ≠ "" →
  FlashFlow.step self (mkInstance st [hw_call] t h Running) (0, r)
  = mkInstance st [transfer_call p]
      (t ++ (ELog <$> carried_logs (reply_items r)) ++ [ECall (transfer_call p)])
      (h ++ ["CollectImage"]) Running.
Proof.
  intros Hn Ht Hs Hp Hne. unfold FlashFlow.step.
  erewrite deliver_eq; [|done|done|by rewrite Hn].
  rewrite remote_responses by done.
  rewrite (CollectImage_path _ _ _ p) by done.
  cbn [absorb pending trace history flow_state delete].
  rewrite calls_of_app, calls_of_logs.
  cbn [items list_delete app calls_of omap].
  rewrite settle_not_idle by apply idle_pending. by rewrite Hn.
Qed.

Lemma step_dump_no_attribute hw_call t h r :
  next_state hw_call = "CollectImage" → target hw_call ≠ SelfState →
  reply_success r = true → head (reply_items r) ≫= path_attr = None →
  FlashFlow.step self (mkInstance st [hw_call] t h Running) (0, r)
  = mkInstance st [] (t ++ (ELog <$> carried_logs (reply_items r)))
      (h ++ ["CollectImage"]) (Failed (AttributeError "path")).
Proof.
  intros Hn Ht Hs Hp. unfold FlashFlow.step.
  erewrite deliver_eq; [|done|done|by rewrite Hn].
  rewrite remote_responses by done.
  rewrite CollectImage_no_attribute by done.
  cbn [absorb pending trace history flow_state delete].
  rewrite settle_not_idle by apply idle_failed. by rewrite Hn.
Qed.

Lemma step_end t h r :
  FlashFlow.step self (mkInstance st [end_call] t h Running) (0, r)
  = mkInstance st [] t (h ++ ["End"]) Completed.
Proof.
  unfold FlashFlow.step.
  erewrite deliver_eq; [|done|done|reflexivity].
  cbn [flow_state]. rewrite End_without_image_path by done.
  cbn [absorb pending trace history flow_state delete calls_of omap app
       list_delete next_state end_call].
  unfold settle. cbn [idle is_running run_status pending andb history].
  rewrite bool_decide_eq_true_2 by done.
  rewrite bool_decide_eq_true_2 by apply last_snoc.
  cbn [idle is_running run_status pending andb history].
  rewrite bool_decide_eq_true_2 by done. cbn. by rewrite app_nil_r.
Qed.

Lemma step_transfer_failure t h r p :
  reply_success r = false →
  FlashFlow.step self (mkInstance st [transfer_call p] t h Running) (0, r)
  = mkInstance st [] t (h ++ ["DeleteTemporaryImage"])
      (Failed (FlowError ("Unable to collect the flash image: "
                          +:+ reply_status r))).
Proof.
  intros Hs. unfold FlashFlow.step.
  erewrite deliver_eq; [|done|done|reflexivity].
  rewrite remote_responses by done.
  rewrite DeleteTemporaryImage_failure by done.
  cbn [absorb pending trace history flow_state delete next_state transfer_call].
  rewrite settle_not_idle by apply idle_failed. by rewrite app_nil_r.
Qed.

Lemma step_transfer_no_attribute t h r p :
  reply_success r = true → head (reply_items r) ≫= aff4path_attr = None →
  FlashFlow.step self (mkInstance st [transfer_call p] t h Running) (0, r)
  = mkInstance st []
      (t ++ [ESendReply (head (reply_items r));
             ECreate (spiflash self) "AFF4Symlink"; EClose (spiflash self)])
      (h ++ ["DeleteTemporaryImage"]) (Failed (AttributeError "aff4path")).
Proof.
  intros Hs Hp. unfold FlashFlow.step.
  erewrite deliver_eq; [|done|done|reflexivity].
  rewrite remote_responses by done.
  rewrite DeleteTemporaryImage_no_attribute by done.
  cbn [absorb pending trace history flow_state delete next_state transfer_call].
  by rewrite settle_not_idle by apply idle_failed.
Qed.

Lemma step_transfer_success t h r p a :
  reply_success r = true → head (reply_items r) ≫= aff4path_attr = Some a →
  FlashFlow.step self (mkInstance st [transfer_call p] t h Running) (0, r)
  = mkInstance st [cleanup_call p]
      (t ++ [ESendReply (head (reply_items r));
             ECreate (spiflash self) "AFF4Symlink";
             ESymlinkSet (spiflash self) a; EClose (spiflash self);
             ECall (cleanup_call p)])
      (h ++ ["DeleteTemporaryImage"]) Running.
Proof.
  intros Hs Hp. unfold FlashFlow.step.
  erewrite deliver_eq; [|done|done|reflexivity].
  rewrite remote_responses by done.
  rewrite (DeleteTemporaryImage_success _ _ _ a) by done.
  cbn [request_data out_request_data transfer_call].
  rewrite lookup_singleton_eq.
  cbn [absorb pending trace history flow_state delete next_state].
  by rewrite settle_not_idle by apply idle_pending.
Qed.

Lemma step_cleanup_failure t h r p :
  reply_success r = false →
  FlashFlow.step self (mkInstance st [cleanup_call p] t h Running) (0, r)
  = mkInstance st [] t (h ++ ["TemporaryImageRemoved"])
      (Failed (FlowError ("Unable to delete the temporary flash image: "
                          +:+ reply_status r))).
Proof.
  intros Hs. unfold FlashFlow.step.
  erewrite deliver_eq; [|done|done|reflexivity].
  rewrite remote_responses by done.
  rewrite TemporaryImageRemoved_failure by done.
  cbn [absorb pending trace history flow_state delete next_state cleanup_call].
  rewrite settle_not_idle by apply idle_failed. by rewrite app_nil_r.
Qed.

Lemma step_cleanup_success t h r p :
  reply_success r = true →
  FlashFlow.step self (mkInstance st [cleanup_call p] t h Running) (0, r)
  = mkInstance st [] t (h ++ ["TemporaryImageRemoved"; "End"]) Completed.
Proof.
  intros Hs. unfold FlashFlow.step.
  erewrite deliver_eq; [|done|done|reflexivity].
  rewrite remote_responses by done.
  rewrite TemporaryImageRemoved_success by done.
  cbn [absorb pending trace history flow_state delete next_state cleanup_call
       calls_of omap app list_delete].
  rewrite app_nil_r, settle_flash_end.
  - by rewrite <- app_assoc.
  - by rewrite last_snoc.
Qed.

End FlashSteps.

(** ** Every run of DumpFlashImage *)

Section FlashShapes.
Import DumpFlashImage.
Variable self : self_t.

Lemma dump_state_no_image_path r2 : dump_state r2 !! "image_path" = None.
Proof. unfold dump_state. by rewrite lookup_insert_ne, lookup_empty. Qed.

Lemma step_dump_failure st t h r :
  reply_success r = false →
  FlashFlow.step self (mkInstance st [dump_call self] t h Running) (0, r)
  = mkInstance st [] (t ++ (ELog <$> carried_logs (reply_items r)))
      (h ++ ["CollectImage"])
      (Failed (FlowError ("Failed to dump the flash image: " +:+ reply_status r))).
Proof.
  intros Hs. unfold FlashFlow.step.
  erewrite deliver_eq; [|done|done|reflexivity].
  rewrite remote_responses by done.
  rewrite CollectImage_failure by done.
  cbn [absorb pending trace history flow_state delete next_state dump_call].
  by rewrite settle_not_idle by apply idle_failed.
Qed.

(** The runner computes exactly the instances listed by [flash_run]. *)
Lemma run_shape replies :
  ∃ inst, FlashFlow.run self replies = Some inst ∧ flash_run self replies inst.
Proof.
  destruct replies as [|r1 [|r2 [|r3 rest]]].
  { eexists. split; [reflexivity | constructor]. }
  { eexists. split; [reflexivity | constructor]. }
  { eexists. split; [reflexivity | constructor]. }
  rewrite run_dumping, in_order_cons, deliver_all_cons.
  fold (FlashFlow.step self). unfold dumping.
  fold (dump_state r2).
  pose proof (dump_state_no_image_path r2) as Hst.
  destruct (reply_success r3) eqn:Hs3.
  2:{ rewrite step_dump_failure by done.
      rewrite deliver_all_terminated by done.
      eexists. split; [reflexivity | by constructor]. }
  destruct (head (reply_items r3) ≫= path_attr) as [p|] eqn:Hp.
  2:{ rewrite step_dump_no_attribute by done.
      rewrite deliver_all_terminated by done.
      eexists. split; [reflexivity | by constructor]. }
  destruct (decide (p = "")) as [->|Hne].
  { rewrite step_dump_no_path by done.
    destruct rest as [|r4 rest].
    { eexists. split; [reflexivity | by constructor]. }
    rewrite in_order_cons, deliver_all_cons. fold (FlashFlow.step self).
    rewrite step_end by done.
    rewrite deliver_all_terminated by done.
    eexists. split; [reflexivity | by constructor]. }
  rewrite (step_dump_path self _ _ _ _ _ p) by done.
  destruct rest as [|r4 rest].
  { eexists. split; [reflexivity | by constructor]. }
  rewrite in_order_cons, deliver_all_cons. fold (FlashFlow.step self).
  destruct (reply_success r4) eqn:Hs4.
  2:{ rewrite step_transfer_failure by done.
      rewrite deliver_all_terminated by done.
      eexists. split; [reflexivity | by constructor]. }
  destruct (head (reply_items r4) ≫= aff4path_attr) as [a|] eqn:Ha.
  2:{ rewrite step_transfer_no_attribute by done.
      rewrite deliver_all_terminated by done.
      eexists. split; [reflexivity|].
      rewrite <- !app_assoc. rewrite !app_assoc.
      by apply (run_transfer_no_attribute self _ _ _ p). }
  rewrite (step_transfer_success _ _ _ _ _ _ a) by done.
  destruct rest as [|r5 rest].
  { eexists. split; [reflexivity|].
    by apply (run_cleaning self _ _ _ p _ a). }
  rewrite in_order_cons, deliver_all_cons. fold (FlashFlow.step self).
  destruct (reply_success r5) eqn:Hs5.
  - rewrite step_cleanup_success by done.
    rewrite deliver_all_terminated by done.
    eexists. split; [reflexivity|].
    by apply (run_finished self _ _ _ p _ a).
  - rewrite step_cleanup_failure by done.
    rewrite deliver_all_terminated by done.
    eexists. split; [reflexivity|].
    by apply (run_cleanup_failed self _ _ _ p _ a).
Qed.

End FlashShapes.

(** ** Observations on the traces of DumpFlashImage *)

Lemma log_lines_logs l : log_lines (ELog <$> l) = l.
Proof. induction l as [|x l IH]; [done|]. cbn. by f_equal. Qed.

Lemma symlink_updates_logs l : symlink_updates (ELog <$> l) = [].
Proof. by induction l. Qed.

Lemma log_lines_app t1 t2 : log_lines (t1 ++ t2) = log_lines t1 ++ log_lines t2.
Proof. apply omap_app. Qed.

Lemma symlink_updates_app t1 t2 :
  symlink_updates (t1 ++ t2) = symlink_updates t1 ++ symlink_updates t2.
Proof. apply omap_app. Qed.

Lemma cleanup_paths_app t1 t2 :
  cleanup_paths (t1 ++ t2) = cleanup_paths t1 ++ cleanup_paths t2.
Proof. unfold cleanup_paths. by rewrite calls_of_app, omap_app. Qed.

Lemma cleanup_paths_logs l : cleanup_paths (ELog <$> l) = [].
Proof. unfold cleanup_paths. by rewrite calls_of_logs. Qed.

Section FlashTraces.
Variable self : DumpFlashImage.self_t.

Lemma log_lines_dump_trace r3 :
  log_lines (dump_trace self r3) = carried_logs (reply_items r3).
Proof. unfold dump_trace. by rewrite log_lines_app, log_lines_logs. Qed.

Lemma calls_of_dump_trace r3 :
  calls_of (dump_trace self r3) = [load_call self; debug_call; dump_call self].
Proof. unfold dump_trace. by rewrite calls_of_app, calls_of_logs. Qed.

Lemma symlink_updates_dump_trace r3 : symlink_updates (dump_trace self r3) = [].
Proof.
  unfold dump_trace. by rewrite symlink_updates_app, symlink_updates_logs.
Qed.

Lemma cleanup_paths_dump_trace r3 : cleanup_paths (dump_trace self r3) = [].
Proof. unfold dump_trace. by rewrite cleanup_paths_app, cleanup_paths_logs. Qed.

Lemma symlink_updates_transfer_trace r3 p :
  symlink_updates (transfer_trace self r3 p) = [].
Proof.
  unfold transfer_trace.
  by rewrite symlink_updates_app, symlink_updates_dump_trace.
Qed.

Lemma cleanup_paths_transfer_trace r3 p :
  cleanup_paths (transfer_trace self r3 p) = [].
Proof.
  unfold transfer_trace. by rewrite cleanup_paths_app, cleanup_paths_dump_trace.
Qed.

Lemma symlink_updates_collect_trace r3 p r4 a :
  symlink_updates (collect_trace self r3 p r4 a) = [(spiflash self, a)].
Proof.
  unfold collect_trace.
  by rewrite symlink_updates_app, symlink_updates_transfer_trace.
Qed.

Lemma cleanup_paths_collect_trace r3 p r4 a :
  cleanup_paths (collect_trace self r3 p r4 a) = [p].
Proof.
  unfold collect_trace.
  by rewrite cleanup_paths_app, cleanup_paths_transfer_trace.
Qed.

(** The runner is a function: the shape of a run is the shape of its result. *)
Lemma run_inv replies inst :
  FlashFlow.run self replies = Some inst → flash_run self replies inst.
Proof.
  intros Hrun. destruct (run_shape self replies) as (inst' & Hrun' & Hshape).
  congruence.
Qed.

End FlashTraces.

Create Rewrite HintDb flash_trace.
#[local] Hint Rewrite symlink_updates_app symlink_updates_dump_trace
  symlink_updates_transfer_trace symlink_updates_collect_trace
  cleanup_paths_app cleanup_paths_dump_trace cleanup_paths_transfer_trace
  cleanup_paths_collect_trace log_lines_app log_lines_dump_trace
  calls_of_app calls_of_dump_trace : flash_trace.

(** C1, at a dump reply that failed with status "device busy". *)
Lemma flash_failed_reply_aborts_witness :
  (∃ msg,
     let inst' :=
       FlashFlow.step example_flash (dumping example_flash None)
         (0, reply_failed "device busy") in
     run_status inst' = Failed (FlowError msg)
     ∧ contains "device busy" msg
     ∧ pending inst' = []
     ∧ calls_of (trace inst') = calls_of (trace (dumping example_flash None))
     ∧ ∀ arrivals,
         deliver_all FlashFlow.handler example_flash inst' arrivals = inst')
  ∧ (∃ inst msg,
       FlashFlow.run example_flash
         [reply_ok []; reply_ok []; reply_failed "device busy"] = Some inst
       ∧ run_status inst = Failed (FlowError msg)
       ∧ contains "device busy" msg
       ∧ filter is_transfer (calls_of (trace inst)) = []).
Proof.
  split.
  - apply (proj1 (flash_failed_reply_aborts example_flash)
             (dumping example_flash None) 0 (dump_call example_flash)
             (reply_failed "device busy")).
    + reflexivity.
    + reflexivity.
    + discriminate.
    + apply list_elem_of_here.
    + reflexivity.
  - apply (proj2 (flash_failed_reply_aborts example_flash)
             (reply_ok []) (reply_ok []) (reply_failed "device busy") []).
    reflexivity.
Defined.

(** ** C2: a successful dump reply with an empty path *)

(** C2, as stated, fails: the log line carried by the reply is forwarded before
    the handler's own line, so the run logs two lines, not one. *)
Lemma empty_path_logs_two_lines :
  reply_success noisy_empty_path = true
  ∧ head (reply_items noisy_empty_path) ≫= path_attr = Some ""
  ∧ log_lines ∘ trace
      <$> FlashFlow.run example_flash
            [reply_ok []; reply_ok []; noisy_empty_path; reply_ok []]
    = Some ["chipsec: SPI controller not found";
            "No path returned. Skipping host."]
  ∧ ¬ (∃ inst line,
         FlashFlow.run example_flash
           [reply_ok []; reply_ok []; noisy_empty_path; reply_ok []] = Some inst
         ∧ log_lines (trace inst) = [line]).
Proof.
  repeat split; try reflexivity.
  intros (inst & line & Hrun & Hlog).
  vm_compute in Hrun. injection Hrun as <-. vm_compute in Hlog. discriminate.
Qed.

(** C2, amended.  On a successful dump reply whose first item has an empty
    path, the flow forwards the log lines carried by the reply, logs exactly
    one line of its own, and queues the transition to [End] and nothing else.
    With a reply that carries no log line that is exactly one line.  When the
    runner's answer to that [CallState] arrives (the fourth arrival), [End]
    runs without logging and the instance completes; no call to the client or
    to a sub-flow is ever dispatched and the instance never fails. *)
Theorem flash_empty_path_skips_host (self : DumpFlashImage.self_t) r1 r2 r3 :
  reply_success r3 = true →
  head (reply_items r3) ≫= path_attr = Some "" →
  ∃ waiting,
    FlashFlow.run self [r1; r2; r3] = Some waiting
    ∧ run_status waiting = Running
    ∧ pending waiting = [end_call]
    ∧ log_lines (trace waiting)
      = carried_logs (reply_items r3) ++ ["No path returned. Skipping host."]
    ∧ (carried_logs (reply_items r3) = [] →
       log_lines (trace waiting) = ["No path returned. Skipping host."])
    ∧ calls_of (trace waiting)
      = [load_call self; debug_call; dump_call self; end_call]
    ∧ ∀ r4 rest, ∃ final,
        FlashFlow.run self (r1 :: r2 :: r3 :: r4 :: rest) = Some final
        ∧ run_status final = Completed
        ∧ pending final = []
        ∧ trace final = trace waiting
        ∧ history final
          = ["Start"; "CollectDebugInfo"; "DumpImage"; "CollectImage"; "End"].
Proof.
  intros Hs Hp.
  destruct (run_shape self [r1; r2; r3]) as (waiting & Hrun & Hshape).
  exists waiting. split; [done|].
  inversion Hshape; subst; try congruence.
  cbn [run_status pending trace]. unfold skip_trace.
  autorewrite with flash_trace. cbn [log_lines calls_of omap app].
  repeat split; try done.
  - by intros ->.
  - intros r4 rest.
    destruct (run_shape self (r1 :: r2 :: r3 :: r4 :: rest))
      as (final & Hrun' & Hshape').
    exists final. split; [done|].
    inversion Hshape'; subst; try congruence. done.
Qed.

Lemma flash_empty_path_skips_host_witness :
  ∃ waiting,
    FlashFlow.run example_flash [reply_ok []; reply_ok []; noisy_empty_path]
    = Some waiting
    ∧ run_status waiting = Running
    ∧ pending waiting = [end_call]
    ∧ log_lines (trace waiting)
      = carried_logs (reply_items noisy_empty_path)
          ++ ["No path returned. Skipping host."]
    ∧ (carried_logs (reply_items noisy_empty_path) = [] →
       log_lines (trace waiting) = ["No path returned. Skipping host."])
    ∧ calls_of (trace waiting)
      = [load_call example_flash; debug_call; dump_call example_flash; end_call]
    ∧ ∀ r4 rest, ∃ final,
        FlashFlow.run example_flash
          (reply_ok [] :: reply_ok [] :: noisy_empty_path :: r4 :: rest)
        = Some final
        ∧ run_status final = Completed
        ∧ pending final = []
        ∧ trace final = trace waiting
        ∧ history final
          = ["Start"; "CollectDebugInfo"; "DumpImage"; "CollectImage"; "End"].
Proof.
  apply (flash_empty_path_skips_host example_flash (reply_ok []) (reply_ok [])
           noisy_empty_path); reflexivity.
Defined.

(** ** C3: the log line of [End] *)

(** [image_path] is never stored in the flow's state: whatever arrives, the
    state holds only what [DumpImage] put there. *)
Lemma image_path_never_stored (self : DumpFlashImage.self_t) replies inst :
  FlashFlow.run self replies = Some inst →
  flow_state inst !! "image_path" = None.
Proof.
  intros Hrun. apply run_inv in Hrun.
  inversion Hrun; subst; cbn [flow_state started debugging dumping];
    solve [ apply lookup_empty | apply dump_state_no_image_path ].
Qed.

(** After a complete collection [End] has run and the trace is the one
    [DeleteTemporaryImage] left: [End] logged nothing. *)
Lemma End_silent_after_collection (self : DumpFlashImage.self_t)
    r1 r2 r3 r4 r5 p a :
  reply_success r3 = true → head (reply_items r3) ≫= path_attr = Some p →
  p ≠ "" →
  reply_success r4 = true → head (reply_items r4) ≫= aff4path_attr = Some a →
  reply_success r5 = true →
  ∃ inst,
    FlashFlow.run self [r1; r2; r3; r4; r5] = Some inst
    ∧ run_status inst = Completed
    ∧ last (history inst) = Some "End"
    ∧ log_lines (trace inst) = carried_logs (reply_items r3).
Proof.
  intros Hs3 Hp Hne Hs4 Ha Hs5.
  destruct (run_shape self [r1; r2; r3; r4; r5]) as (inst & Hrun & Hshape).
  exists inst. split; [done|].
  inversion Hshape; subst; try congruence.
  cbn [run_status history trace]. unfold collect_trace, transfer_trace.
  autorewrite with flash_trace. cbn [log_lines omap]. by rewrite !app_nil_r.
Qed.

(** C3.  The run that dumps, transfers and cleans up successfully reaches
    [End] and completes, and its log is empty: [End] tests the state for
    [image_path], which no handler stores, and does not log
    "Successfully wrote Flash image.". *)
Theorem flash_End_logs_nothing :
  (run_status <$> FlashFlow.run example_flash successful_collection)
    = Some Completed
  ∧ (history <$> FlashFlow.run example_flash successful_collection)
    = Some ["Start"; "CollectDebugInfo"; "DumpImage"; "CollectImage";
            "DeleteTemporaryImage"; "TemporaryImageRemoved"; "End"]
  ∧ (log_lines ∘ trace <$> FlashFlow.run example_flash successful_collection)
    = Some []
  ∧ (symlink_updates ∘ trace
       <$> FlashFlow.run example_flash successful_collection)
    = Some [("aff4:/C.1000000000000000/spiflash",
             "aff4:/C.1000000000000000/fs/os/tmp/spi.bin")].
Proof. repeat split; vm_compute; reflexivity. Qed.

(** ** C4: the cleanup call *)

(** Handler level: whatever [DeleteTemporaryImage] dispatches is the single
    cleanup call for the path found under [image_path] in the request data of
    its responses, and it is dispatched only on success. *)
Lemma DeleteTemporaryImage_calls (self : DumpFlashImage.self_t) r st c :
  c ∈ calls_of (DumpFlashImage.DeleteTemporaryImage self r st).1 →
  success r = true
  ∧ ∃ p, request_data r !! "image_path" = Some p ∧ c = cleanup_call p.
Proof.
  destruct (success r) eqn:Hs.
  2:{ rewrite DeleteTemporaryImage_failure by done. by intros ?%elem_of_nil. }
  destruct (First r ≫= aff4path_attr) as [a|] eqn:Ha.
  2:{ rewrite DeleteTemporaryImage_no_attribute by done.
      by intros ?%elem_of_nil. }
  rewrite (DeleteTemporaryImage_success _ _ _ a) by done.
  destruct (request_data r !! "image_path") as [p|]; cbn.
  - intros ->%list_elem_of_singleton. eauto.
  - by intros ?%elem_of_nil.
Qed.

(** C4.  In every run, a cleanup call is in the trace only if the transfer
    reply was successful, and its path is the path of the dump reply.  The path
    travels in the request data of the transfer call, which come back with the
    transfer responses: the transfer call carries [image_path := p], and the
    handler dispatches the cleanup call for the [image_path] of its responses.
    After a successful transfer reply that carries the file, exactly that one
    cleanup call has been dispatched. *)
Theorem cleanup_carries_dump_path (self : DumpFlashImage.self_t) :
  (∀ replies inst q,
     FlashFlow.run self replies = Some inst →
     q ∈ cleanup_paths (trace inst) →
     ∃ r1 r2 r3 r4 rest,
       replies = r1 :: r2 :: r3 :: r4 :: rest
       ∧ head (reply_items r3) ≫= path_attr = Some q
       ∧ reply_success r4 = true)
  ∧ (∀ r st c,
       c ∈ calls_of (DumpFlashImage.DeleteTemporaryImage self r st).1 →
       success r = true
       ∧ ∃ p, request_data r !! "image_path" = Some p ∧ c = cleanup_call p)
  ∧ (∀ r1 r2 r3 r4 p a,
       reply_success r3 = true →
       head (reply_items r3) ≫= path_attr = Some p → p ≠ "" →
       reply_success r4 = true →
       head (reply_items r4) ≫= aff4path_attr = Some a →
       ∃ before after,
         FlashFlow.run self [r1; r2; r3] = Some before
         ∧ pending before = [transfer_call p]
         ∧ out_request_data (transfer_call p) !! "image_path" = Some p
         ∧ cleanup_paths (trace before) = []
         ∧ FlashFlow.run self [r1; r2; r3; r4] = Some after
         ∧ pending after = [cleanup_call p]
         ∧ cleanup_paths (trace after) = [p]).
Proof.
  split; [|split].
  - intros replies inst q Hrun%run_inv Hq.
    inversion Hrun; subst; cbn [trace started debugging dumping] in Hq;
      unfold skip_trace in Hq; autorewrite with flash_trace in Hq;
      try (by apply elem_of_nil in Hq).
    + apply list_elem_of_singleton in Hq as ->. eauto 10.
    + apply list_elem_of_singleton in Hq as ->. eauto 10.
    + apply list_elem_of_singleton in Hq as ->. eauto 10.
  - apply DeleteTemporaryImage_calls.
  - intros r1 r2 r3 r4 p a Hs3 Hp Hne Hs4 Ha.
    destruct (run_shape self [r1; r2; r3]) as (before & Hrun & Hshape).
    destruct (run_shape self [r1; r2; r3; r4]) as (after & Hrun' & Hshape').
    exists before, after.
    inversion Hshape; subst; try congruence.
    inversion Hshape'; subst; try congruence. simplify_eq.
    cbn [pending trace]. autorewrite with flash_trace.
    repeat split; done.
Qed.

Lemma cleanup_carries_dump_path_witness :
  (∃ r1 r2 r3 r4 rest,
     [reply_ok []; reply_ok []; dumped_reply; transferred_reply]
     = r1 :: r2 :: r3 :: r4 :: rest
     ∧ head (reply_items r3) ≫= path_attr = Some "/tmp/spi.bin"
     ∧ reply_success r4 = true)
  ∧ (∃ before after,
       FlashFlow.run example_flash [reply_ok []; reply_ok []; dumped_reply]
       = Some before
       ∧ pending before = [transfer_call "/tmp/spi.bin"]
       ∧ out_request_data (transfer_call "/tmp/spi.bin") !! "image_path"
         = Some "/tmp/spi.bin"
       ∧ cleanup_paths (trace before) = []
       ∧ FlashFlow.run example_flash
           [reply_ok []; reply_ok []; dumped_reply; transferred_reply]
         = Some after
       ∧ pending after = [cleanup_call "/tmp/spi.bin"]
       ∧ cleanup_paths (trace after) = ["/tmp/spi.bin"]).
Proof.
  split.
  - eapply (proj1 (cleanup_carries_dump_path example_flash)).
    + vm_compute. reflexivity.
    + vm_compute. apply list_elem_of_here.
  - apply (proj2 (proj2 (cleanup_carries_dump_path example_flash))
             (reply_ok []) (reply_ok []) dumped_reply transferred_reply
             "/tmp/spi.bin" "aff4:/C.1000000000000000/fs/os/tmp/spi.bin");
      (reflexivity || discriminate).
Defined.

(** ** C5: the update of the [spiflash] symlink *)

(** C5, as stated, fails: a run whose dump reply failed performs no update of
    the symlink at all. *)
Lemma failed_dump_updates_no_symlink :
  (run_status <$> FlashFlow.run example_flash
                    [reply_ok []; reply_ok []; reply_failed "device busy"])
    = Some (Failed (FlowError "Failed to dump the flash image: device busy"))
  ∧ (symlink_updates ∘ trace
       <$> FlashFlow.run example_flash
             [reply_ok []; reply_ok []; reply_failed "device busy"])
    = Some []
  ∧ ¬ (∃ inst,
         FlashFlow.run example_flash
           [reply_ok []; reply_ok []; reply_failed "device busy"] = Some inst
         ∧ length (symlink_updates (trace inst)) = 1).
Proof.
  repeat split; try (vm_compute; reflexivity).
  intros (inst & Hrun & Hlen).
  vm_compute in Hrun. injection Hrun as <-. vm_compute in Hlen. discriminate.
Qed.

(** C5, amended.  In every run the symlink is updated at most once, and only
    in a run whose dump reply and transfer reply were both successful.  When
    the successful transfer reply carries the collected file, the run updates
    the symlink exactly once: nothing was updated before the transfer reply
    arrived, and [DeleteTemporaryImage] then sends the file as a reply, updates
    the symlink and dispatches the cleanup call, in this order; nothing that
    arrives later adds to the trace. *)
Theorem symlink_updated_once_after_transfer (self : DumpFlashImage.self_t) :
  (∀ replies inst,
     FlashFlow.run self replies = Some inst →
     length (symlink_updates (trace inst)) ≤ 1)
  ∧ (∀ replies inst,
       FlashFlow.run self replies = Some inst →
       symlink_updates (trace inst) ≠ [] →
       ∃ r1 r2 r3 r4 rest,
         replies = r1 :: r2 :: r3 :: r4 :: rest
         ∧ reply_success r3 = true ∧ reply_success r4 = true)
  ∧ (∀ r1 r2 r3 r4 rest p a,
       reply_success r3 = true →
       head (reply_items r3) ≫= path_attr = Some p → p ≠ "" →
       reply_success r4 = true →
       head (reply_items r4) ≫= aff4path_attr = Some a →
       ∃ before inst,
         FlashFlow.run self [r1; r2; r3] = Some before
         ∧ symlink_updates (trace before) = []
         ∧ FlashFlow.run self (r1 :: r2 :: r3 :: r4 :: rest) = Some inst
         ∧ trace inst
           = trace before
               ++ [ESendReply (head (reply_items r4));
                   ECreate (spiflash self) "AFF4Symlink";
                   ESymlinkSet (spiflash self) a;
                   EClose (spiflash self);
                   ECall (cleanup_call p)]
         ∧ symlink_updates (trace inst) = [(spiflash self, a)]).
Proof.
  split; [|split].
  - intros replies inst Hrun%run_inv.
    inversion Hrun; subst; cbn [trace started debugging dumping];
      unfold skip_trace; autorewrite with flash_trace; cbn; lia.
  - intros replies inst Hrun%run_inv Hne.
    inversion Hrun; subst; cbn [trace started debugging dumping] in Hne;
      unfold skip_trace in Hne; autorewrite with flash_trace in Hne;
      try done; eauto 10.
  - intros r1 r2 r3 r4 rest p a Hs3 Hp Hne Hs4 Ha.
    destruct (run_shape self [r1; r2; r3]) as (before & Hrun & Hshape).
    destruct (run_shape self (r1 :: r2 :: r3 :: r4 :: rest))
      as (inst & Hrun' & Hshape').
    exists before, inst.
    inversion Hshape; subst; try congruence.
    inversion Hshape'; subst; try congruence; simplify_eq;
      cbn [trace]; autorewrite with flash_trace; done.
Qed.

Lemma symlink_updated_once_after_transfer_witness :
  (∃ inst,
     FlashFlow.run example_flash successful_collection = Some inst
     ∧ length (symlink_updates (trace inst)) ≤ 1)
  ∧ (∃ r1 r2 r3 r4 rest,
       successful_collection = r1 :: r2 :: r3 :: r4 :: rest
       ∧ reply_success r3 = true ∧ reply_success r4 = true)
  ∧ (∃ before inst,
       FlashFlow.run example_flash [reply_ok []; reply_ok []; dumped_reply]
       = Some before
       ∧ symlink_updates (trace before) = []
       ∧ FlashFlow.run example_flash
           [reply_ok []; reply_ok []; dumped_reply; transferred_reply; reply_ok []]
         = Some inst
       ∧ trace inst
         = trace before
             ++ [ESendReply (head (reply_items transferred_reply));
                 ECreate (spiflash example_flash) "AFF4Symlink";
                 ESymlinkSet (spiflash example_flash)
                   "aff4:/C.1000000000000000/fs/os/tmp/spi.bin";
                 EClose (spiflash example_flash);
                 ECall (cleanup_call "/tmp/spi.bin")]
       ∧ symlink_updates (trace inst)
         = [(spiflash example_flash,
             "aff4:/C.1000000000000000/fs/os/tmp/spi.bin")]).
Proof.
  split; [|split].
  - eexists. split; [vm_compute; reflexivity|].
    apply (proj1 (symlink_updated_once_after_transfer example_flash)
             successful_collection).
    vm_compute. reflexivity.
  - eapply (proj1 (proj2 (symlink_updated_once_after_transfer example_flash))).
    + vm_compute. reflexivity.
    + vm_compute. discriminate.
  - apply (proj2 (proj2 (symlink_updated_once_after_transfer example_flash))
             (reply_ok []) (reply_ok []) dumped_reply transferred_reply
             [reply_ok []] "/tmp/spi.bin"
             "aff4:/C.1000000000000000/fs/os/tmp/spi.bin");
      (reflexivity || discriminate).
Defined.

(** ** C10: the debug information is never checked *)

(** C10.  [CollectDebugInfo] and [DumpImage] do not look at the success flag of
    their responses.  [CollectDebugInfo] always starts the artifact collector;
    [DumpImage] always stores the first item of its responses, [None] if there
    is none, under [hardware_info] and always dispatches the dump call.  So
    after any two replies, failed or not, the instance is running and waits
    for the dump reply. *)
Theorem debug_info_never_checked (self : DumpFlashImage.self_t) :
  (∀ r st,
     DumpFlashImage.CollectDebugInfo self r st = ([ECall debug_call], Ok tt st))
  ∧ (∀ r st,
       DumpFlashImage.DumpImage self r st
       = ([ECall (dump_call self)], Ok tt (<["hardware_info" := First r]> st)))
  ∧ (∀ r1 r2, ∃ inst,
       FlashFlow.run self [r1; r2] = Some inst
       ∧ run_status inst = Running
       ∧ pending inst = [dump_call self]
       ∧ flow_state inst !! "hardware_info" = Some (head (reply_items r2))
       ∧ trace inst = [ECall (load_call self); ECall debug_call;
                       ECall (dump_call self)]).
Proof.
  split; [|split].
  - done.
  - done.
  - intros r1 r2. eexists. split; [reflexivity|].
    cbn [dumping run_status pending flow_state trace]. done.
Qed.

(** ** The state handlers of DumpACPITable, case by case *)

Section ACPIHandlers.
Import DumpACPITable DumpACPITableArgs.
Variable self : self_t.

Lemma StartCollection_eq r st :
  StartCollection self r st
  = (ECall ∘ fetch_call self <$> table_signature_list (args self), Ok tt st).
Proof. apply (for_each_emit (ECall ∘ fetch_call self)). Qed.

Lemma forward_logs_acpi (l : list Message) st :
  with_logs l →
  for_each l (λ response,
    logs ← getattr "logs" logs_attr (Some response) ;
    for_each logs Log) st = (ELog <$> carried_logs l, Ok tt st).
Proof.
  induction 1 as [|m l [logs Hm] _ IH]; [done|].
  cbn [for_each]. unfold carried_logs. cbn [mbind list_bind]. rewrite fmap_app.
  rewrite Hm. cbn [default].
  erewrite bind_ok; [by rewrite IH|].
  unfold getattr. cbn [mbind option_bind]. rewrite Hm, bind_ret.
  apply (for_each_emit ELog).
Qed.

Lemma TableReceived_failure r st lg table_signature :
  success r = false →
  request_payload r = Some (DumpACPITableRequest lg table_signature) →
  with_logs (items r) →
  TableReceived self r st
  = ((ELog <$> carried_logs (items r)) ++ [ELog (error_line table_signature)],
     Ok tt st).
Proof.
  intros Hs Hreq Hlogs. unfold TableReceived.
  erewrite bind_ok by by apply forward_logs_acpi.
  rewrite Hreq, Hs. cbn [mbind option_bind table_signature_attr negb].
  by rewrite bind_ret.
Qed.

Lemma TableReceived_success r st lg table_signature tables logs rest :
  success r = true →
  request_payload r = Some (DumpACPITableRequest lg table_signature) →
  items r = DumpACPITableResponse tables logs :: rest →
  with_logs (items r) →
  TableReceived self r st
  = ((ELog <$> carried_logs (items r))
       ++ match tables with
          | [] => []
          | _ :: _ => store_trace self table_signature tables
          end,
     Ok tt st).
Proof.
  intros Hs Hreq Hitems Hlogs. unfold TableReceived.
  erewrite bind_ok by by apply forward_logs_acpi.
  rewrite Hreq, Hs. cbn [mbind option_bind table_signature_attr negb].
  rewrite bind_ret. unfold First, getattr. rewrite Hitems.
  cbn [head mbind option_bind acpi_tables_attr]. rewrite bind_ret.
  destruct tables as [|t ts]; [done|].
  unfold Log. erewrite bind_ok by reflexivity.
  erewrite bind_ok by reflexivity.
  cbn [fst snd]. unfold SendReply.
  rewrite (for_each_emit (λ t, ESendReply (Some (ACPITableValue t)))).
  done.
Qed.

End ACPIHandlers.

(** ** Runs of DumpACPITable *)

Section ACPIRuns.
Import DumpACPITable DumpACPITableArgs.
Variable self : self_t.

Lemma calls_of_fetch_calls (l : list string) :
  calls_of (ECall ∘ fetch_call self <$> l) = fetch_call self <$> l.
Proof. induction l as [|x l IH]; [done|]. cbn. by f_equal. Qed.

Lemma calls_of_replies (l : list ACPITableData) :
  calls_of ((λ t, ESendReply (Some (ACPITableValue t))) <$> l) = [].
Proof. by induction l. Qed.

Lemma calls_of_received_trace table_signature reply :
  calls_of (received_trace self table_signature reply) = [].
Proof.
  unfold received_trace. rewrite calls_of_app, calls_of_logs.
  destruct (reply_success reply); [|done].
  destruct (head (reply_items reply) ≫= acpi_tables_attr) as [[|t ts]|];
    try done.
  unfold store_trace. rewrite calls_of_app, calls_of_replies. done.
Qed.

Lemma TableReceived_returns table_signature reply st :
  acpi_reply reply →
  TableReceived self (responses_for (fetch_call self table_signature) reply) st
  = (received_trace self table_signature reply, Ok tt st).
Proof.
  intros [Hlogs Hfirst]. rewrite remote_responses by done.
  unfold received_trace. destruct (reply_success reply) eqn:Hs.
  - destruct (Hfirst eq_refl) as (tables & logs & rest & Hitems).
    erewrite TableReceived_success; [|done|done|exact Hitems|done].
    cbn [items]. rewrite Hitems. by destruct tables.
  - by erewrite TableReceived_failure.
Qed.

Lemma acpi_start_eq :
  table_signature_list (args self) ≠ [] →
  ACPIFlow.start self = inr (acpi_started self).
Proof.
  intros Hne. unfold ACPIFlow.start, StartFlow, Validate.
  by destruct (table_signature_list (args self)).
Qed.

Lemma acpi_run_collecting reply arrivals :
  table_signature_list (args self) ≠ [] →
  ACPIFlow.run self ((0, reply) :: arrivals)
  = inr (deliver_all ACPIFlow.handler self (collecting self) arrivals).
Proof.
  intros Hne. unfold ACPIFlow.run. rewrite acpi_start_eq by done.
  rewrite deliver_all_cons. do 2 f_equal.
  erewrite deliver_eq; [|done|done|reflexivity].
  rewrite StartCollection_eq.
  cbn [absorb pending trace history flow_state acpi_started delete
       list_delete app next_state acpi_load_call].
  rewrite calls_of_fetch_calls. apply settle_not_idle.
  unfold idle. cbn [pending]. rewrite bool_decide_eq_false_2; [done|].
  by intros ?%fmap_nil_inv.
Qed.

(** One arrival for a pending fetch request: [TableReceived] runs once, its
    request leaves the pending list, the others stay as they are. *)
Lemma acpi_step inst idx table_signature reply :
  run_status inst = Running →
  pending inst !! idx = Some (fetch_call self table_signature) →
  acpi_reply reply →
  ACPIFlow.step self inst (idx, reply)
  = if bool_decide (delete idx (pending inst) = []) then
      mkInstance (flow_state inst) []
        (trace inst ++ received_trace self table_signature reply)
        (history inst ++ ["TableReceived"; "End"]) Completed
    else
      mkInstance (flow_state inst) (delete idx (pending inst))
        (trace inst ++ received_trace self table_signature reply)
        (history inst ++ ["TableReceived"]) Running.
Proof.
  intros Hrun Hcall Hreply. unfold ACPIFlow.step.
  erewrite deliver_eq; [|done|done|reflexivity].
  rewrite TableReceived_returns by done.
  cbn [absorb pending trace history flow_state next_state fetch_call].
  rewrite calls_of_received_trace, app_nil_r.
  unfold settle, idle. cbn [is_running run_status pending andb history].
  case_bool_decide as Hnil; [|done].
  rewrite bool_decide_eq_false_2 by by rewrite last_snoc.
  unfold RunStateMethod.
  change (ACPIFlow.handler self "End")
    with (Some (λ _ : Responses, mret tt : Flow unit)).
  cbn. rewrite Hnil. cbn. by rewrite !app_nil_r, <- app_assoc.
Qed.

(** Answering every pending fetch request, in any order, runs
    [TableReceived] once per request and then completes the flow. *)
Lemma acpi_drain arrivals : ∀ inst signatures,
  run_status inst = Running →
  pending inst = fetch_call self <$> signatures →
  signatures ≠ [] →
  all_arrive (length signatures) arrivals →
  let final := deliver_all ACPIFlow.handler self inst arrivals in
  run_status final = Completed
  ∧ pending final = []
  ∧ history final
    = history inst ++ replicate (length signatures) "TableReceived" ++ ["End"].
Proof.
  induction arrivals as [|[idx reply] arrivals IH];
    intros inst signatures Hrun Hpending Hne Harrive.
  { cbn in Harrive. by destruct signatures. }
  destruct Harrive as (Hidx & Hreply & Harrive).
  destruct (lookup_lt_is_Some_2 signatures idx Hidx) as [sig Hsig].
  rewrite deliver_all_cons. fold (ACPIFlow.step self).
  rewrite (acpi_step _ _ sig) by
    (try done; by rewrite Hpending, list_lookup_fmap, Hsig).
  rewrite Hpending, <- list_fmap_delete.
  assert (Hlen : length signatures = S (length (delete idx signatures))).
  { rewrite length_delete by done. lia. }
  case_bool_decide as Hnil.
  - apply fmap_nil_inv in Hnil. rewrite Hnil in Hlen.
    rewrite Hlen in Harrive |- *. cbn in Harrive.
    destruct arrivals as [|[? ?] ?]; [|cbn in Harrive; lia].
    done.
  - rewrite Hlen in Harrive |- *. cbn [pred] in Harrive.
    lazymatch goal with
    | |- context [deliver_all _ _ ?next arrivals] =>
        destruct (IH next (delete idx signatures)) as (H1 & H2 & H3);
          [done|done| |done|]
    end.
    { by intros Heq; rewrite Heq in Hnil. }
    cbn zeta in *. rewrite H1, H2, H3. cbn [history].
    by rewrite <- app_assoc.
Qed.

End ACPIRuns.

Lemma durable_writes_logs l : durable_writes (ELog <$> l) = [].
Proof. by induction l. Qed.

Lemma replies_sent_logs l : replies_sent (ELog <$> l) = [].
Proof. by induction l. Qed.

Lemma durable_writes_app t1 t2 :
  durable_writes (t1 ++ t2) = durable_writes t1 ++ durable_writes t2.
Proof. apply omap_app. Qed.

Lemma replies_sent_app t1 t2 :
  replies_sent (t1 ++ t2) = replies_sent t1 ++ replies_sent t2.
Proof. apply omap_app. Qed.

Create Rewrite HintDb acpi_trace.
#[local] Hint Rewrite durable_writes_app durable_writes_logs replies_sent_app
  replies_sent_logs log_lines_app log_lines_logs calls_of_app calls_of_logs
  app_nil_r : acpi_trace.

Lemma acpi_reply_facp_failed : acpi_reply facp_failed.
Proof. split; [constructor | discriminate]. Qed.

Lemma acpi_reply_dsdt_fetched : acpi_reply dsdt_fetched.
Proof.
  split; [|by eauto].
  repeat constructor. by eexists.
Qed.

(** ** C6: one fetch call per signature *)

(** C6, as stated, fails: when the first fetch reply to arrive is successful
    but carries no item, [TableReceived] raises on [response.acpi_tables], the
    instance fails and the reply for the other signature is discarded.  Of the
    two continuation invocations only one results. *)
Lemma fetch_without_item_stops_fan_out :
  ACPIFlow.run example_acpi
    [(0, reply_ok []); (0, reply_ok []); (0, dsdt_fetched)]
  = inr (deliver_all ACPIFlow.handler example_acpi (collecting example_acpi)
           [(0, reply_ok []); (0, dsdt_fetched)])
  ∧ run_status
      (deliver_all ACPIFlow.handler example_acpi (collecting example_acpi)
         [(0, reply_ok []); (0, dsdt_fetched)])
    = Failed (AttributeError "acpi_tables")
  ∧ history
      (deliver_all ACPIFlow.handler example_acpi (collecting example_acpi)
         [(0, reply_ok []); (0, dsdt_fetched)])
    = ["Start"; "StartCollection"; "TableReceived"]
  ∧ history
      (deliver_all ACPIFlow.handler example_acpi (collecting example_acpi)
         [(0, reply_ok []); (0, dsdt_fetched)])
    ≠ ["Start"; "StartCollection"]
        ++ replicate 2 "TableReceived" ++ ["End"].
Proof.
  split; [by apply acpi_run_collecting|].
  split; [by vm_compute|]. split; [by vm_compute|]. by vm_compute.
Qed.

Lemma all_arrive_iff n arrivals :
  all_arrive n arrivals
  ↔ arrival_order n arrivals ∧ Forall (λ a, acpi_reply a.2) arrivals.
Proof.
  revert n. induction arrivals as [|[i reply] arrivals IH]; intros n; cbn.
  { split; [by intros -> | by intros [-> _]]. }
  rewrite IH, Forall_cons. cbn. tauto.
Qed.

(** C6, amended.  [StartCollection] dispatches one [DumpACPITable] call per
    requested signature, in order, each with its own signature in the request
    and [TableReceived] as the next state, and nothing else.  With a non-empty
    list the instance then holds that many separate pending requests.  When
    every reply is one that [TableReceived] handles without raising (every
    item has logs and a successful reply has a [DumpACPITableResponse] first),
    then once each request has been answered, in whatever order,
    [TableReceived] has run that many times before the flow completes. *)
Theorem fan_out_one_call_per_signature (self : DumpACPITable.self_t) :
  let signatures := DumpACPITableArgs.table_signature_list (args self) in
  (∀ r st,
     DumpACPITable.StartCollection self r st
     = (ECall ∘ fetch_call self <$> signatures, Ok tt st))
  ∧ (∀ r st,
       length (calls_of (DumpACPITable.StartCollection self r st).1)
       = length signatures)
  ∧ (∀ s,
       target (fetch_call self s)
       = ClientAction
           (DumpACPITableRequest (DumpACPITableArgs.logging (args self)) s)
       ∧ next_state (fetch_call self s) = "TableReceived")
  ∧ (∀ reply,
       1 ≤ length signatures →
       ∃ inst,
         ACPIFlow.run self [(0, reply)] = inr inst
         ∧ run_status inst = Running
         ∧ pending inst = fetch_call self <$> signatures
         ∧ length (pending inst) = length signatures)
  ∧ (∀ reply arrivals,
       1 ≤ length signatures →
       arrival_order (length signatures) arrivals →
       Forall (λ a, acpi_reply a.2) arrivals →
       ∃ final,
         ACPIFlow.run self ((0, reply) :: arrivals) = inr final
         ∧ run_status final = Completed
         ∧ history final
           = ["Start"; "StartCollection"]
               ++ replicate (length signatures) "TableReceived" ++ ["End"]).
Proof.
  intros signatures.
  assert (Hne : 1 ≤ length signatures →
                DumpACPITableArgs.table_signature_list (args self) ≠ []).
  { subst signatures. destruct (DumpACPITableArgs.table_signature_list _);
      cbn; [lia | done]. }
  split; [|split; [|split; [|split]]].
  - intros r st. apply StartCollection_eq.
  - intros r st. rewrite StartCollection_eq. cbn [fst].
    by rewrite calls_of_fetch_calls, length_fmap.
  - done.
  - intros reply Hlen. rewrite acpi_run_collecting by auto.
    eexists. split; [reflexivity|].
    split; [done|]. split; [done|]. apply length_fmap.
  - intros reply arrivals Hlen Horder Hreplies.
    assert (Harrive : all_arrive (length signatures) arrivals)
      by by apply all_arrive_iff.
    rewrite acpi_run_collecting by auto.
    eexists. split; [reflexivity|].
    destruct (acpi_drain self arrivals (collecting self) signatures)
      as (H1 & _ & H3); auto.
Qed.

Lemma fan_out_one_call_per_signature_witness :
  (∃ inst,
     ACPIFlow.run example_acpi [(0, reply_ok [])] = inr inst
     ∧ run_status inst = Running
     ∧ pending inst = fetch_call example_acpi <$> ["FACP"; "DSDT"]
     ∧ length (pending inst) = 2)
  ∧ (∃ final,
       ACPIFlow.run example_acpi
         [(0, reply_ok []); (1, dsdt_fetched); (0, facp_failed)] = inr final
       ∧ run_status final = Completed
       ∧ history final
         = ["Start"; "StartCollection"; "TableReceived"; "TableReceived"; "End"]).
Proof.
  split.
  - apply (proj1 (proj2 (proj2 (proj2
             (fan_out_one_call_per_signature example_acpi)))) (reply_ok [])).
    cbn. lia.
  - apply (proj2 (proj2 (proj2 (proj2
             (fan_out_one_call_per_signature example_acpi))))
             (reply_ok []) [(1, dsdt_fetched); (0, facp_failed)]).
    + cbn. lia.
    + split; [cbn; lia|]. split; [cbn; lia|]. reflexivity.
    + constructor; [apply acpi_reply_dsdt_fetched|].
      constructor; [apply acpi_reply_facp_failed|]. constructor.
Defined.

(** ** C7: a failed fetch *)

(** C7, as stated, fails: [TableReceived] reads [response.logs] of every item
    before it tests the success flag, so a failed reply with an item that has
    no [logs] attribute raises [AttributeError]: no error line is logged, the
    instance fails and the request for the other signature is dropped. *)
Lemma logless_failed_fetch_raises :
  reply_success logless_failed = false
  ∧ DumpACPITable.TableReceived example_acpi
      (responses_for (fetch_call example_acpi "FACP") logless_failed) ∅
    = ([], Raise (AttributeError "logs"))
  ∧ run_status
      (ACPIFlow.step example_acpi (collecting example_acpi) (0, logless_failed))
    = Failed (AttributeError "logs")
  ∧ pending
      (ACPIFlow.step example_acpi (collecting example_acpi) (0, logless_failed))
    = []
  ∧ log_lines
      (trace
         (ACPIFlow.step example_acpi (collecting example_acpi)
            (0, logless_failed)))
    = [].
Proof. repeat split; by vm_compute. Qed.

(** C7, amended.  On a failed reply whose items all have a [logs] attribute
    (a failed reply usually has no item at all), [TableReceived] takes the
    signature from the request the reply answers, forwards the log lines the
    reply carries, logs the error line for that signature and returns.  In the
    instance this removes the one answered request and leaves the others
    pending; the state, the durable writes, the replies sent and the calls
    dispatched are unchanged, and the instance goes on running, or completes
    if this was the last request: it does not fail. *)
Theorem failed_fetch_logged_not_raised (self : DumpACPITable.self_t) :
  (∀ r st lg s,
     success r = false →
     request_payload r = Some (DumpACPITableRequest lg s) →
     with_logs (items r) →
     DumpACPITable.TableReceived self r st
     = ((ELog <$> carried_logs (items r))
          ++ [ELog ("Error retrieving ACPI table with signature " +:+ s)],
        Ok tt st))
  ∧ (∀ inst idx s reply,
       run_status inst = Running →
       pending inst !! idx = Some (fetch_call self s) →
       reply_success reply = false →
       with_logs (reply_items reply) →
       let inst' := ACPIFlow.step self inst (idx, reply) in
       (run_status inst' = Running ∨ run_status inst' = Completed)
       ∧ pending inst' = delete idx (pending inst)
       ∧ flow_state inst' = flow_state inst
       ∧ trace inst'
         = trace inst ++ (ELog <$> carried_logs (reply_items reply))
             ++ [ELog ("Error retrieving ACPI table with signature " +:+ s)]
       ∧ durable_writes (trace inst') = durable_writes (trace inst)
       ∧ replies_sent (trace inst') = replies_sent (trace inst)
       ∧ calls_of (trace inst') = calls_of (trace inst)).
Proof.
  split.
  - intros r st lg s Hs Hreq Hlogs. by erewrite TableReceived_failure.
  - intros inst idx s reply Hrun Hcall Hs Hlogs inst'.
    assert (Hreply : acpi_reply reply).
    { split; [done|]. by rewrite Hs. }
    assert (Hinst : trace inst'
                    = trace inst ++ (ELog <$> carried_logs (reply_items reply))
                        ++ [ELog (error_line s)]
                    ∧ pending inst' = delete idx (pending inst)
                    ∧ flow_state inst' = flow_state inst
                    ∧ (run_status inst' = Running ∨ run_status inst' = Completed)).
    { subst inst'. rewrite (acpi_step self inst idx s reply) by done.
      unfold received_trace. rewrite Hs.
      case_bool_decide as Hnil; cbn; rewrite ?Hnil; auto. }
    destruct Hinst as (Htrace & Hpending & Hstate & Hstatus).
    rewrite Htrace. autorewrite with acpi_trace. cbn.
    autorewrite with acpi_trace. done.
Qed.

Lemma failed_fetch_logged_not_raised_witness :
  DumpACPITable.TableReceived example_acpi
    (responses_for (fetch_call example_acpi "FACP") facp_failed) ∅
  = ((ELog <$> carried_logs [])
       ++ [ELog ("Error retrieving ACPI table with signature " +:+ "FACP")],
     Ok tt ∅)
  ∧ (let inst' := ACPIFlow.step example_acpi (collecting example_acpi)
                    (0, facp_failed) in
     (run_status inst' = Running ∨ run_status inst' = Completed)
     ∧ pending inst' = delete 0 (pending (collecting example_acpi))
     ∧ flow_state inst' = flow_state (collecting example_acpi)
     ∧ trace inst'
       = trace (collecting example_acpi)
           ++ (ELog <$> carried_logs (reply_items facp_failed))
           ++ [ELog ("Error retrieving ACPI table with signature " +:+ "FACP")]
     ∧ durable_writes (trace inst')
       = durable_writes (trace (collecting example_acpi))
     ∧ replies_sent (trace inst') = replies_sent (trace (collecting example_acpi))
     ∧ calls_of (trace inst') = calls_of (trace (collecting example_acpi))).
Proof.
  split.
  - apply (proj1 (failed_fetch_logged_not_raised example_acpi)
             (responses_for (fetch_call example_acpi "FACP") facp_failed)
             ∅ true "FACP").
    + reflexivity.
    + reflexivity.
    + constructor.
  - apply (proj2 (failed_fetch_logged_not_raised example_acpi)
             (collecting example_acpi) 0 "FACP" facp_failed).
    + reflexivity.
    + reflexivity.
    + reflexivity.
    + constructor.
Defined.

(** ** C8: one failure and one success, in either order *)

(** C8, as stated, fails: with a failed reply for FACP that carries an item
    without a [logs] attribute, [TableReceived] raises on it.  When it arrives
    first the instance fails before the DSDT reply is handled, and nothing is
    written or sent; when it arrives second the DSDT tables have already been
    written and sent.  The outcome depends on the order of arrival. *)
Lemma logless_failure_breaks_commutation :
  ACPIFlow.run example_acpi
    [(0, reply_ok []); (0, logless_failed); (0, dsdt_fetched)]
  = inr (deliver_all ACPIFlow.handler example_acpi (collecting example_acpi)
           [(0, logless_failed); (0, dsdt_fetched)])
  ∧ ACPIFlow.run example_acpi
      [(0, reply_ok []); (1, dsdt_fetched); (0, logless_failed)]
    = inr (deliver_all ACPIFlow.handler example_acpi (collecting example_acpi)
             [(1, dsdt_fetched); (0, logless_failed)])
  ∧ durable_writes
      (trace
         (deliver_all ACPIFlow.handler example_acpi (collecting example_acpi)
            [(0, logless_failed); (0, dsdt_fetched)]))
    = []
  ∧ durable_writes
      (trace
         (deliver_all ACPIFlow.handler example_acpi (collecting example_acpi)
            [(1, dsdt_fetched); (0, logless_failed)]))
    = [("aff4:/C.1000000000000000/devices/chipsec/acpi/tables/DSDT",
        ["DSDT table bytes"])]
  ∧ replies_sent
      (trace
         (deliver_all ACPIFlow.handler example_acpi (collecting example_acpi)
            [(0, logless_failed); (0, dsdt_fetched)]))
    = []
  ∧ replies_sent
      (trace
         (deliver_all ACPIFlow.handler example_acpi (collecting example_acpi)
            [(1, dsdt_fetched); (0, logless_failed)]))
    = [Some (ACPITableValue "DSDT table bytes")].
Proof.
  split; [by apply acpi_run_collecting|].
  split; [by apply acpi_run_collecting|].
  repeat split; by vm_compute.
Qed.

(** C8, amended.  With the signatures FACP and DSDT, a failed reply for FACP
    whose items all have a [logs] attribute and a successful reply with one
    table for DSDT, the flow completes with one error line for FACP, one
    collection written under the urn that [client_id.Add] gives for
    [devices/chipsec/acpi/tables/DSDT], and one reply sent, whichever reply
    arrives first.  The two traces are permutations of each other; the log
    holds the same lines, the block of each reply in the order of arrival. *)
Theorem acpi_replies_commute (self : DumpACPITable.self_t)
    (loaded failed fetched : Reply) (table : ACPITableData) (logs : list string) :
  DumpACPITableArgs.table_signature_list (args self) = ["FACP"; "DSDT"] →
  reply_success failed = false →
  with_logs (reply_items failed) →
  reply_success fetched = true →
  reply_items fetched = [DumpACPITableResponse [table] logs] →
  ∃ a b,
    ACPIFlow.run self [(0, loaded); (0, failed); (0, fetched)] = inr a
    ∧ ACPIFlow.run self [(0, loaded); (1, fetched); (0, failed)] = inr b
    ∧ run_status a = Completed ∧ run_status b = Completed
    ∧ flow_state a = flow_state b
    ∧ durable_writes (trace a)
      = [(Add (client_id self) "devices/chipsec/acpi/tables/DSDT", [table])]
    ∧ durable_writes (trace b)
      = [(Add (client_id self) "devices/chipsec/acpi/tables/DSDT", [table])]
    ∧ replies_sent (trace a) = [Some (ACPITableValue table)]
    ∧ replies_sent (trace b) = [Some (ACPITableValue table)]
    ∧ log_lines (trace a)
      = (carried_logs (reply_items failed)
           ++ ["Error retrieving ACPI table with signature FACP"])
          ++ (logs ++ ["Retrieved ACPI table(s) with signature DSDT"])
    ∧ log_lines (trace b)
      = (logs ++ ["Retrieved ACPI table(s) with signature DSDT"])
          ++ (carried_logs (reply_items failed)
                ++ ["Error retrieving ACPI table with signature FACP"])
    ∧ trace a ≡ₚ trace b.
Proof.
  intros Hsigs Hfail Hflogs Hok Hitems.
  assert (Hfailed : acpi_reply failed).
  { split; [done|]. by rewrite Hfail. }
  assert (Hfetched : acpi_reply fetched).
  { split; [|by eauto]. rewrite Hitems. repeat constructor. by eexists. }
  assert (Hne : DumpACPITableArgs.table_signature_list (args self) ≠ [])
    by by rewrite Hsigs.
  rewrite !acpi_run_collecting by done. unfold collecting. rewrite Hsigs.
  rewrite !deliver_all_cons. fold (ACPIFlow.step self).
  rewrite (acpi_step self _ 0 "FACP" failed) by done.
  rewrite (acpi_step self _ 1 "DSDT" fetched) by done.
  cbn [pending delete list_delete fmap list_fmap bool_decide decide_rel
       list_eq_nil_dec].
  rewrite (acpi_step self _ 0 "DSDT" fetched) by done.
  rewrite (acpi_step self _ 0 "FACP" failed) by done.
  cbn [pending delete list_delete fmap list_fmap bool_decide decide_rel
       list_eq_nil_dec].
  eexists _, _. split; [reflexivity|]. split; [reflexivity|].
  cbn [run_status flow_state trace].
  assert (HF : received_trace self "FACP" failed
               = (ELog <$> carried_logs (reply_items failed))
                   ++ [ELog (error_line "FACP")]).
  { unfold received_trace. by rewrite Hfail. }
  assert (HD : received_trace self "DSDT" fetched
               = (ELog <$> logs) ++ store_trace self "DSDT" [table]).
  { unfold received_trace. rewrite Hok, Hitems. cbn. by rewrite app_nil_r. }
  do 3 (split; [done|]).
  repeat split.
  1-6: rewrite HF, HD; unfold store_trace; autorewrite with acpi_trace; cbn;
       autorewrite with acpi_trace; done.
  rewrite <- !app_assoc. cbn [app]. do 3 apply Permutation_skip.
  apply Permutation_app_comm.
Qed.

Lemma acpi_replies_commute_witness :
  ∃ a b,
    ACPIFlow.run example_acpi
      [(0, reply_ok []); (0, facp_failed); (0, dsdt_fetched)] = inr a
    ∧ ACPIFlow.run example_acpi
        [(0, reply_ok []); (1, dsdt_fetched); (0, facp_failed)] = inr b
    ∧ run_status a = Completed ∧ run_status b = Completed
    ∧ flow_state a = flow_state b
    ∧ durable_writes (trace a)
      = [(Add (client_id example_acpi) "devices/chipsec/acpi/tables/DSDT",
          ["DSDT table bytes"])]
    ∧ durable_writes (trace b)
      = [(Add (client_id example_acpi) "devices/chipsec/acpi/tables/DSDT",
          ["DSDT table bytes"])]
    ∧ replies_sent (trace a) = [Some (ACPITableValue "DSDT table bytes")]
    ∧ replies_sent (trace b) = [Some (ACPITableValue "DSDT table bytes")]
    ∧ log_lines (trace a)
      = (carried_logs (reply_items facp_failed)
           ++ ["Error retrieving ACPI table with signature FACP"])
          ++ (["chipsec: read DSDT"]
                ++ ["Retrieved ACPI table(s) with signature DSDT"])
    ∧ log_lines (trace b)
      = (["chipsec: read DSDT"]
           ++ ["Retrieved ACPI table(s) with signature DSDT"])
          ++ (carried_logs (reply_items facp_failed)
                ++ ["Error retrieving ACPI table with signature FACP"])
    ∧ trace a ≡ₚ trace b.
Proof.
  apply (acpi_replies_commute example_acpi (reply_ok []) facp_failed
           dsdt_fetched "DSDT table bytes" ["chipsec: read DSDT"]).
  - reflexivity.
  - reflexivity.
  - constructor.
  - reflexivity.
  - reflexivity.
Defined.

(** ** C9: an empty signature list *)

(** C9.  With an empty [table_signature_list], [Validate] raises [ValueError]
    and the flow is not started: there is no instance, whatever arrives, and
    so no state, no trace and no call. *)
Theorem empty_signature_list_rejected (self : DumpACPITable.self_t) :
  DumpACPITableArgs.table_signature_list (args self) = [] →
  DumpACPITableArgs.Validate (args self)
  = Some (ValueError "No ACPI table to dump.")
  ∧ ACPIFlow.start self = inl (ValueError "No ACPI table to dump.")
  ∧ ∀ arrivals,
      ACPIFlow.run self arrivals = inl (ValueError "No ACPI table to dump.").
Proof.
  intros Hnil.
  assert (Hv : DumpACPITableArgs.Validate (args self)
               = Some (ValueError "No ACPI table to dump.")).
  { unfold DumpACPITableArgs.Validate. by rewrite Hnil. }
  assert (Hs : ACPIFlow.start self = inl (ValueError "No ACPI table to dump.")).
  { unfold ACPIFlow.start, StartFlow. by rewrite Hv. }
  repeat split; [done..|].
  intros arrivals. unfold ACPIFlow.run. by rewrite Hs.
Qed.

Lemma empty_signature_list_rejected_witness :
  DumpACPITableArgs.Validate (args empty_acpi)
  = Some (ValueError "No ACPI table to dump.")
  ∧ ACPIFlow.start empty_acpi = inl (ValueError "No ACPI table to dump.")
  ∧ ∀ arrivals,
      ACPIFlow.run empty_acpi arrivals
      = inl (ValueError "No ACPI table to dump.").
Proof. apply (empty_signature_list_rejected empty_acpi). reflexivity. Defined.

(** * Further properties of DumpFlashImage *)

Lemma replies_sent_dump_trace (self : DumpFlashImage.self_t) r3 :
  replies_sent (dump_trace self r3) = [].
Proof. unfold dump_trace. by rewrite replies_sent_app, replies_sent_logs. Qed.


(** X2.  A run has at most one request in flight, and it is running exactly
    while one request is pending. *)
Theorem flash_one_request_in_flight (self : DumpFlashImage.self_t) replies :
  ∃ inst,
    FlashFlow.run self replies = Some inst
    ∧ length (pending inst) ≤ 1
    ∧ (run_status inst = Running ↔ length (pending inst) = 1).
Proof.
  destruct (run_shape self replies) as (inst & Hrun & Hshape).
  exists inst. split; [done|].
  inversion Hshape; subst;
    cbn [pending run_status started debugging dumping length];
    (split; [lia|]); split; (done || lia).
Qed.

(** X4.  The state object of a run is empty until [DumpImage] has run and from
    then on holds the first item of the artifact collector's responses under
    [hardware_info] and nothing else: no later handler writes to it. *)
Theorem flash_state_holds_only_hardware_info (self : DumpFlashImage.self_t)
    replies :
  ∃ inst,
    FlashFlow.run self replies = Some inst
    ∧ flow_state inst
      = match replies with
        | _ :: r2 :: _ => <["hardware_info" := head (reply_items r2)]> ∅
        | _ => ∅
        end.
Proof.
  destruct (run_shape self replies) as (inst & Hrun & Hshape).
  exists inst. split; [done|].
  by inversion Hshape; subst.
Qed.

Lemma run_eq_deliver_all (self : DumpFlashImage.self_t) replies :
  FlashFlow.run self replies
  = Some (deliver_all FlashFlow.handler self (started self) (in_order replies)).
Proof. done. Qed.

(** X3.  A run is over once five replies have arrived: the instance has
    completed or failed, nothing is pending, and whatever arrives afterwards
    changes nothing. *)
Theorem flash_over_after_five_replies (self : DumpFlashImage.self_t)
    replies more :
  5 ≤ length replies →
  ∃ inst,
    FlashFlow.run self replies = Some inst
    ∧ run_status inst ≠ Running
    ∧ pending inst = []
    ∧ FlashFlow.run self (replies ++ more) = Some inst.
Proof.
  intros Hlen.
  destruct (run_shape self replies) as (inst & Hrun & Hshape).
  exists inst. split; [done|].
  assert (Hover : run_status inst ≠ Running ∧ pending inst = []).
  { inversion Hshape; subst; cbn in Hlen; try lia; by cbn. }
  destruct Hover as [Hstatus Hpending]. do 2 (split; [done|]).
  rewrite run_eq_deliver_all in Hrun |- *. injection Hrun as Hrun.
  unfold in_order, deliver_all in *. rewrite fmap_app, foldl_app, Hrun.
  f_equal. by apply deliver_all_terminated.
Qed.

Lemma flash_over_after_five_replies_witness :
  ∃ inst,
    FlashFlow.run example_flash successful_collection = Some inst
    ∧ run_status inst ≠ Running
    ∧ pending inst = []
    ∧ FlashFlow.run example_flash
        (successful_collection ++ [reply_failed "late"]) = Some inst.
Proof.
  apply (flash_over_after_five_replies example_flash successful_collection
           [reply_failed "late"]).
  cbn. lia.
Defined.

(** X5.  [CollectImage] forwards every log line of every item that has logs,
    in order, before it looks at the success flag: the lines are logged also
    when the dump failed or the first item has no path.  After them it logs at
    most its own "No path returned" line, and only on success. *)
Theorem CollectImage_forwards_logs_first (self : DumpFlashImage.self_t) r st :
  ∃ own,
    log_lines (DumpFlashImage.CollectImage self r st).1
    = carried_logs (items r) ++ own
    ∧ (own = [] ∨ own = ["No path returned. Skipping host."])
    ∧ (success r = false → own = []).
Proof.
  destruct (success r) eqn:Hs.
  2:{ exists []. rewrite CollectImage_failure by done. cbn [fst].
      by rewrite log_lines_logs, app_nil_r; auto. }
  destruct (First r ≫= path_attr) as [p|] eqn:Hp.
  2:{ exists []. rewrite CollectImage_no_attribute by done. cbn [fst].
      by rewrite log_lines_logs, app_nil_r; auto. }
  destruct (decide (p = "")) as [->|Hne].
  - exists ["No path returned. Skipping host."].
    rewrite CollectImage_no_path by done. cbn [fst].
    rewrite log_lines_app, log_lines_logs. split; [done|]. split; [auto|done].
  - exists []. rewrite (CollectImage_path _ _ _ p) by done. cbn [fst].
    rewrite log_lines_app, log_lines_logs. split; [done|]. split; [auto|done].
Qed.

(** X6.  A run sends at most one reply to its caller: the first item of a
    successful transfer reply.  Further items of that reply, and the items of
    every other reply, are never sent. *)
Theorem flash_sends_at_most_one_reply (self : DumpFlashImage.self_t) replies :
  ∃ inst,
    FlashFlow.run self replies = Some inst
    ∧ (replies_sent (trace inst) = []
       ∨ ∃ r1 r2 r3 r4 rest,
           replies = r1 :: r2 :: r3 :: r4 :: rest
           ∧ reply_success r4 = true
           ∧ replies_sent (trace inst) = [head (reply_items r4)]).
Proof.
  destruct (run_shape self replies) as (inst & Hrun & Hshape).
  exists inst. split; [done|].
  inversion Hshape; subst; cbn [trace started debugging dumping];
    unfold skip_trace, collect_trace, transfer_trace;
    rewrite ?replies_sent_app, ?replies_sent_dump_trace;
    cbn [replies_sent omap app]; (by left) || (right; eauto 10).
Qed.

(** X7.  A successful dump reply without an item, or whose first item has no
    [path], makes [CollectImage] fail on [responses.First().path]: the
    instance fails with that exception and neither transfers nor logs "No path
    returned". *)
Theorem dump_reply_without_path_fails (self : DumpFlashImage.self_t)
    r1 r2 r3 rest :
  reply_success r3 = true →
  head (reply_items r3) ≫= path_attr = None →
  ∃ inst,
    FlashFlow.run self (r1 :: r2 :: r3 :: rest) = Some inst
    ∧ run_status inst = Failed (AttributeError "path")
    ∧ calls_of (trace inst) = [load_call self; debug_call; dump_call self]
    ∧ log_lines (trace inst) = carried_logs (reply_items r3).
Proof.
  intros Hs Hp.
  destruct (run_shape self (r1 :: r2 :: r3 :: rest)) as (inst & Hrun & Hshape).
  exists inst. split; [done|].
  inversion Hshape; subst; try congruence.
  cbn [run_status trace]. by autorewrite with flash_trace.
Qed.

Lemma dump_reply_without_path_fails_witness :
  ∃ inst,
    FlashFlow.run example_flash [reply_ok []; reply_ok []; reply_ok []]
    = Some inst
    ∧ run_status inst = Failed (AttributeError "path")
    ∧ calls_of (trace inst)
      = [load_call example_flash; debug_call; dump_call example_flash]
    ∧ log_lines (trace inst) = carried_logs (reply_items (reply_ok [])).
Proof.
  apply (dump_reply_without_path_fails example_flash (reply_ok []) (reply_ok [])
           (reply_ok []) []); reflexivity.
Defined.

(** X8.  A successful transfer reply without an item, or whose first item has
    no [aff4path], makes the instance fail in [DeleteTemporaryImage] before
    the symlink is given a target and before the cleanup call: the temporary
    image is left on the client. *)
Theorem transfer_without_file_skips_cleanup (self : DumpFlashImage.self_t)
    r1 r2 r3 r4 rest p :
  reply_success r3 = true →
  head (reply_items r3) ≫= path_attr = Some p → p ≠ "" →
  reply_success r4 = true →
  head (reply_items r4) ≫= aff4path_attr = None →
  ∃ inst e,
    FlashFlow.run self (r1 :: r2 :: r3 :: r4 :: rest) = Some inst
    ∧ run_status inst = Failed e
    ∧ pending inst = []
    ∧ symlink_updates (trace inst) = []
    ∧ cleanup_paths (trace inst) = [].
Proof.
  intros Hs3 Hp Hne Hs4 Ha.
  destruct (run_shape self (r1 :: r2 :: r3 :: r4 :: rest))
    as (inst & Hrun & Hshape).
  exists inst.
  inversion Hshape; subst; try congruence.
  eexists. split; [done|]. cbn [run_status pending trace].
  by autorewrite with flash_trace.
Qed.

Lemma transfer_without_file_skips_cleanup_witness :
  ∃ inst e,
    FlashFlow.run example_flash
      [reply_ok []; reply_ok []; dumped_reply; reply_ok []] = Some inst
    ∧ run_status inst = Failed e
    ∧ pending inst = []
    ∧ symlink_updates (trace inst) = []
    ∧ cleanup_paths (trace inst) = [].
Proof.
  apply (transfer_without_file_skips_cleanup example_flash (reply_ok [])
           (reply_ok []) dumped_reply (reply_ok []) [] "/tmp/spi.bin");
    (reflexivity || discriminate).
Defined.

(** X9.  The lookup [responses.request_data["image_path"]] comes after the
    symlink update: on responses without that key [DeleteTemporaryImage]
    raises [KeyError] with the reply sent and the symlink already updated, and
    dispatches no cleanup.  No run gets there, because [CollectImage] always
    attaches the key to the transfer call: no run fails with [KeyError]. *)
Theorem image_path_lookup (self : DumpFlashImage.self_t) :
  (∀ r st a,
     success r = true → First r ≫= aff4path_attr = Some a →
     request_data r !! "image_path" = None →
     ∃ t,
       DumpFlashImage.DeleteTemporaryImage self r st
       = (t, Raise (KeyError "image_path"))
       ∧ replies_sent t = [First r]
       ∧ symlink_updates t = [(spiflash self, a)]
       ∧ calls_of t = [])
  ∧ (∀ replies, ∃ inst,
       FlashFlow.run self replies = Some inst
       ∧ ∀ key, run_status inst ≠ Failed (KeyError key)).
Proof.
  split.
  - intros r st a Hs Ha Hkey.
    rewrite (DeleteTemporaryImage_success _ _ _ a), Hkey by done.
    by eexists.
  - intros replies.
    destruct (run_shape self replies) as (inst & Hrun & Hshape).
    exists inst. split; [done|]. intros key.
    by inversion Hshape; subst.
Qed.

Lemma image_path_lookup_witness :
  ∃ t,
    DumpFlashImage.DeleteTemporaryImage example_flash
      (mkResponses true "" (reply_items transferred_reply) ∅ None) ∅
    = (t, Raise (KeyError "image_path"))
    ∧ replies_sent t = [head (reply_items transferred_reply)]
    ∧ symlink_updates t
      = [(spiflash example_flash,
          "aff4:/C.1000000000000000/fs/os/tmp/spi.bin")]
    ∧ calls_of t = [].
Proof.
  apply (proj1 (image_path_lookup example_flash)
           (mkResponses true "" (reply_items transferred_reply) ∅ None) ∅
           "aff4:/C.1000000000000000/fs/os/tmp/spi.bin"); reflexivity.
Defined.

(** * Further properties of DumpACPITable *)

Lemma replies_sent_tables (l : list ACPITableData) :
  replies_sent ((λ t, ESendReply (Some (ACPITableValue t))) <$> l)
  = (λ t, Some (ACPITableValue t)) <$> l.
Proof. induction l as [|x l IH]; [done|]. cbn. by f_equal. Qed.

Lemma durable_writes_tables (l : list ACPITableData) :
  durable_writes ((λ t, ESendReply (Some (ACPITableValue t))) <$> l) = [].
Proof. by induction l. Qed.

Lemma log_lines_tables (l : list ACPITableData) :
  log_lines ((λ t, ESendReply (Some (ACPITableValue t))) <$> l) = [].
Proof. by induction l. Qed.

(** X11.  On a successful reply [TableReceived] stores and sends the tables of
    the first item only: one [AddAll] of the whole list under the urn of the
    request's signature, then one reply per table, in order.  The tables of
    further items are ignored, though their log lines are forwarded.  With an
    empty table list it stores and sends nothing and logs no line of its own. *)
Theorem TableReceived_stores_first_item (self : DumpACPITable.self_t)
    r st lg s tables logs rest :
  success r = true →
  request_payload r = Some (DumpACPITableRequest lg s) →
  items r = DumpACPITableResponse tables logs :: rest →
  with_logs rest →
  ∃ t,
    DumpACPITable.TableReceived self r st = (t, Ok tt st)
    ∧ durable_writes t
      = match tables with [] => [] | _ :: _ => [(table_urn self s, tables)] end
    ∧ replies_sent t = (λ x, Some (ACPITableValue x)) <$> tables
    ∧ log_lines t
      = (logs ++ carried_logs rest)
          ++ match tables with
             | [] => []
             | _ :: _ => ["Retrieved ACPI table(s) with signature " +:+ s]
             end
    ∧ calls_of t = [].
Proof.
  intros Hs Hreq Hitems Hrest.
  assert (Hlogs : with_logs (items r)).
  { rewrite Hitems. constructor; [by eexists | done]. }
  erewrite TableReceived_success; [|done|done|exact Hitems|done].
  eexists. split; [reflexivity|]. rewrite Hitems.
  change (carried_logs (DumpACPITableResponse tables logs :: rest))
    with (logs ++ carried_logs rest).
  destruct tables as [|x tables].
  - autorewrite with acpi_trace. done.
  - unfold store_trace.
    rewrite !durable_writes_app, !replies_sent_app, !log_lines_app, !calls_of_app.
    rewrite durable_writes_logs, replies_sent_logs, log_lines_logs, calls_of_logs.
    rewrite durable_writes_tables, replies_sent_tables, log_lines_tables,
      calls_of_replies.
    cbn. done.
Qed.

Lemma TableReceived_stores_first_item_witness :
  ∃ t,
    DumpACPITable.TableReceived example_acpi
      (responses_for (fetch_call example_acpi "DSDT")
         (reply_ok [DumpACPITableResponse ["t1"; "t2"] ["a"];
                    DumpACPITableResponse ["t3"] ["b"]])) ∅
    = (t, Ok tt ∅)
    ∧ durable_writes t = [(table_urn example_acpi "DSDT", ["t1"; "t2"])]
    ∧ replies_sent t = (λ x, Some (ACPITableValue x)) <$> ["t1"; "t2"]
    ∧ log_lines t
      = (["a"] ++ carried_logs [DumpACPITableResponse ["t3"] ["b"]])
          ++ ["Retrieved ACPI table(s) with signature " +:+ "DSDT"]
    ∧ calls_of t = [].
Proof.
  apply (TableReceived_stores_first_item example_acpi _ ∅ true "DSDT"
           ["t1"; "t2"] ["a"] [DumpACPITableResponse ["t3"] ["b"]]).
  - reflexivity.
  - reflexivity.
  - reflexivity.
  - repeat constructor. by eexists.
Defined.

Lemma TableReceived_no_attribute (self : DumpACPITable.self_t) r st lg s :
  success r = true →
  request_payload r = Some (DumpACPITableRequest lg s) →
  with_logs (items r) →
  First r ≫= acpi_tables_attr = None →
  DumpACPITable.TableReceived self r st
  = (ELog <$> carried_logs (items r), Raise (AttributeError "acpi_tables")).
Proof.
  intros Hs Hreq Hlogs Hnone. unfold DumpACPITable.TableReceived.
  erewrite bind_ok by by apply forward_logs_acpi.
  rewrite Hreq, Hs. cbn [mbind option_bind table_signature_attr negb].
  rewrite bind_ret. unfold getattr. rewrite Hnone. cbn. by rewrite app_nil_r.
Qed.

(** X12.  A successful fetch reply without an item makes [TableReceived] fail
    on [response.acpi_tables]: unlike a failed reply, it fails the whole
    instance, and the requests for the other signatures are dropped
    unanswered. *)
Theorem fetch_reply_without_item_aborts (self : DumpACPITable.self_t)
    inst idx s reply :
  run_status inst = Running →
  pending inst !! idx = Some (fetch_call self s) →
  reply_success reply = true →
  reply_items reply = [] →
  let inst' := ACPIFlow.step self inst (idx, reply) in
  run_status inst' = Failed (AttributeError "acpi_tables")
  ∧ pending inst' = []
  ∧ trace inst' = trace inst.
Proof.
  intros Hrun Hcall Hs Hitems inst'. subst inst'. unfold ACPIFlow.step.
  erewrite deliver_eq; [|done|done|reflexivity].
  rewrite remote_responses by done.
  erewrite TableReceived_no_attribute;
    [|done|reflexivity|cbn [items]; rewrite Hitems; constructor
     |unfold First; cbn [items]; by rewrite Hitems].
  cbn [absorb pending trace history flow_state items].
  rewrite settle_not_idle by apply idle_failed.
  cbn [run_status pending trace]. rewrite Hitems. cbn. by rewrite app_nil_r.
Qed.

Lemma fetch_reply_without_item_aborts_witness :
  let inst' := ACPIFlow.step example_acpi (collecting example_acpi)
                 (0, reply_ok []) in
  run_status inst' = Failed (AttributeError "acpi_tables")
  ∧ pending inst' = []
  ∧ trace inst' = trace (collecting example_acpi).
Proof.
  apply (fetch_reply_without_item_aborts example_acpi (collecting example_acpi)
           0 "FACP" (reply_ok [])); reflexivity.
Defined.

(** X13.  [TableReceived] reads [response.logs] without testing for the
    attribute: an item without logs makes it raise [AttributeError] after the
    log lines of the items before it, whatever the success flag says, so that
    not even the error line of a failed reply is logged. *)
Theorem TableReceived_item_without_logs (self : DumpACPITable.self_t)
    r st before m after :
  items r = before ++ m :: after →
  with_logs before →
  logs_attr m = None →
  DumpACPITable.TableReceived self r st
  = (ELog <$> carried_logs before, Raise (AttributeError "logs")).
Proof.
  intros Hitems Hbefore Hm. unfold DumpACPITable.TableReceived.
  apply bind_raise. rewrite Hitems. clear Hitems.
  induction Hbefore as [|x before [logs Hx] _ IH].
  - cbn [app for_each]. apply bind_raise.
    unfold getattr. cbn [mbind option_bind]. rewrite Hm.
    by apply bind_raise.
  - cbn [app for_each]. unfold carried_logs. cbn [mbind list_bind].
    rewrite Hx. cbn [default]. rewrite fmap_app.
    erewrite bind_ok.
    2:{ unfold getattr. cbn [mbind option_bind]. rewrite Hx, bind_ret.
        apply (for_each_emit ELog). }
    by rewrite IH.
Qed.

Lemma TableReceived_item_without_logs_witness :
  DumpACPITable.TableReceived example_acpi
    (mkResponses false "failed"
       [DumpACPITableResponse [] ["a"]; OtherValue "x"] ∅
       (Some (DumpACPITableRequest true "FACP"))) ∅
  = (ELog <$> carried_logs [DumpACPITableResponse [] ["a"]],
     Raise (AttributeError "logs")).
Proof.
  apply (TableReceived_item_without_logs example_acpi _ ∅
           [DumpACPITableResponse [] ["a"]] (OtherValue "x") []).
  - reflexivity.
  - repeat constructor. by eexists.
  - reflexivity.
Defined.

(** ** Complete runs of DumpACPITable *)

Section ACPIComplete.
Import DumpACPITable DumpACPITableArgs.
Variable self : self_t.

Lemma answered_signatures arrivals : ∀ signatures,
  all_arrive (length signatures) arrivals →
  (answered signatures arrivals).*1 ≡ₚ signatures.
Proof.
  induction arrivals as [|[idx reply] arrivals IH]; intros signatures Harrive.
  { cbn in Harrive. by destruct signatures. }
  destruct Harrive as (Hidx & _ & Harrive).
  destruct (lookup_lt_is_Some_2 signatures idx Hidx) as [s Hs].
  cbn [answered]. rewrite Hs. cbn [fmap list_fmap fst].
  trans (s :: delete idx signatures);
    [|symmetry; by apply delete_Permutation].
  constructor.
  apply IH. rewrite length_delete by done.
  by replace (length signatures - 1) with (pred (length signatures)) by lia.
Qed.

Lemma answered_replies arrivals : ∀ signatures,
  all_arrive (length signatures) arrivals →
  (answered signatures arrivals).*2 = arrivals.*2.
Proof.
  induction arrivals as [|[idx reply] arrivals IH]; intros signatures Harrive.
  { done. }
  destruct Harrive as (Hidx & _ & Harrive).
  destruct (lookup_lt_is_Some_2 signatures idx Hidx) as [s Hs].
  cbn [answered]. rewrite Hs. cbn [fmap list_fmap snd]. f_equal.
  apply IH. rewrite length_delete by done.
  by replace (length signatures - 1) with (pred (length signatures)) by lia.
Qed.

Lemma acpi_trace_of_arrivals arrivals : ∀ inst signatures,
  run_status inst = Running →
  pending inst = fetch_call self <$> signatures →
  signatures ≠ [] →
  all_arrive (length signatures) arrivals →
  trace (deliver_all ACPIFlow.handler self inst arrivals)
  = trace inst
      ++ concat ((λ sr, received_trace self sr.1 sr.2)
                   <$> answered signatures arrivals).
Proof.
  induction arrivals as [|[idx reply] arrivals IH];
    intros inst signatures Hrun Hpending Hne Harrive.
  { cbn in Harrive. by destruct signatures. }
  destruct Harrive as (Hidx & Hreply & Harrive).
  destruct (lookup_lt_is_Some_2 signatures idx Hidx) as [s Hs].
  rewrite deliver_all_cons. fold (ACPIFlow.step self).
  rewrite (acpi_step _ _ _ s) by
    (try done; by rewrite Hpending, list_lookup_fmap, Hs).
  cbn [answered]. rewrite Hs. cbn [fmap list_fmap concat fst snd].
  rewrite Hpending, <- list_fmap_delete.
  assert (Hlen : length signatures = S (length (delete idx signatures))).
  { rewrite length_delete by done. lia. }
  rewrite Hlen in Harrive. cbn [pred] in Harrive.
  case_bool_decide as Hnil.
  - apply fmap_nil_inv in Hnil. rewrite Hnil in Harrive |- *.
    destruct arrivals as [|[? ?] ?]; [|cbn in Harrive; lia].
    cbn. by rewrite app_nil_r.
  - lazymatch goal with
    | |- context [deliver_all _ _ ?next arrivals] =>
        rewrite (IH next (delete idx signatures)); [|done|done| |done]
    end.
    + cbn [trace]. by rewrite <- app_assoc.
    + by intros Heq; rewrite Heq in Hnil.
Qed.

End ACPIComplete.

(** X15.  In a complete run every requested signature is answered exactly
    once: the signatures [TableReceived] was run for are a permutation of the
    requested ones, each with one of the replies that arrived, and the trace
    is the fan-out followed by what [TableReceived] did for each pair, in the
    order of arrival. *)
Theorem acpi_each_signature_answered_once (self : DumpACPITable.self_t)
    loaded arrivals :
  let signatures := DumpACPITableArgs.table_signature_list (args self) in
  1 ≤ length signatures →
  all_arrive (length signatures) arrivals →
  ∃ final,
    ACPIFlow.run self ((0, loaded) :: arrivals) = inr final
    ∧ run_status final = Completed
    ∧ trace final
      = trace (collecting self)
          ++ concat ((λ sr, received_trace self sr.1 sr.2)
                       <$> answered signatures arrivals)
    ∧ (answered signatures arrivals).*1 ≡ₚ signatures
    ∧ (answered signatures arrivals).*2 = arrivals.*2.
Proof.
  intros signatures Hlen Harrive.
  assert (Hne : DumpACPITableArgs.table_signature_list (args self) ≠ []).
  { subst signatures. destruct (DumpACPITableArgs.table_signature_list _);
      cbn in Hlen; [lia | done]. }
  rewrite acpi_run_collecting by done.
  eexists. split; [reflexivity|].
  destruct (acpi_drain self arrivals (collecting self) signatures)
    as (Hstatus & _ & _); [done..|].
  split; [done|]. split; [by apply acpi_trace_of_arrivals|].
  split; [by apply answered_signatures | by apply answered_replies].
Qed.

Lemma acpi_each_signature_answered_once_witness :
  ∃ final,
    ACPIFlow.run example_acpi
      [(0, reply_ok []); (1, dsdt_fetched); (0, facp_failed)] = inr final
    ∧ run_status final = Completed
    ∧ trace final
      = trace (collecting example_acpi)
          ++ concat ((λ sr, received_trace example_acpi sr.1 sr.2)
                       <$> answered ["FACP"; "DSDT"]
                             [(1, dsdt_fetched); (0, facp_failed)])
    ∧ (answered ["FACP"; "DSDT"] [(1, dsdt_fetched); (0, facp_failed)]).*1
      ≡ₚ ["FACP"; "DSDT"]
    ∧ (answered ["FACP"; "DSDT"] [(1, dsdt_fetched); (0, facp_failed)]).*2
      = [(1, dsdt_fetched); (0, facp_failed)].*2.
Proof.
  apply (acpi_each_signature_answered_once example_acpi (reply_ok [])
           [(1, dsdt_fetched); (0, facp_failed)]).
  - cbn. lia.
  - split; [cbn; lia|]. split; [apply acpi_reply_dsdt_fetched|].
    split; [cbn; lia|]. split; [apply acpi_reply_facp_failed|].
    reflexivity.
Defined.

Lemma failed_blocks (self : DumpACPITable.self_t) arrivals : ∀ signatures,
  Forall (λ a, reply_success a.2 = false) arrivals →
  concat ((λ sr, received_trace self sr.1 sr.2) <$> answered signatures arrivals)
  = concat ((λ sr, (ELog <$> carried_logs (reply_items sr.2))
                     ++ [ELog (error_line sr.1)])
              <$> answered signatures arrivals).
Proof.
  induction arrivals as [|[idx reply] arrivals IH]; intros signatures Hall.
  { done. }
  apply Forall_cons in Hall as [Hs Hall]. cbn [snd] in Hs.
  cbn [answered]. destruct (signatures !! idx) as [s|]; [|by apply IH].
  cbn [fmap list_fmap concat fst snd]. rewrite IH by done.
  unfold received_trace. by rewrite Hs.
Qed.

Lemma observe_fetch_calls (self : DumpACPITable.self_t) (l : list string) :
  log_lines (ECall ∘ fetch_call self <$> l) = []
  ∧ durable_writes (ECall ∘ fetch_call self <$> l) = []
  ∧ replies_sent (ECall ∘ fetch_call self <$> l) = [].
Proof. by induction l. Qed.

Lemma observe_failed_blocks (l : list (string * Reply)) :
  log_lines
    (concat ((λ sr, (ELog <$> carried_logs (reply_items sr.2))
                      ++ [ELog (error_line sr.1)]) <$> l))
  = concat ((λ sr, carried_logs (reply_items sr.2) ++ [error_line sr.1]) <$> l)
  ∧ durable_writes
      (concat ((λ sr, (ELog <$> carried_logs (reply_items sr.2))
                        ++ [ELog (error_line sr.1)]) <$> l))
    = []
  ∧ replies_sent
      (concat ((λ sr, (ELog <$> carried_logs (reply_items sr.2))
                        ++ [ELog (error_line sr.1)]) <$> l))
    = [].
Proof.
  induction l as [|[s r] l (IH1 & IH2 & IH3)]; [done|].
  cbn [fmap list_fmap concat fst snd].
  rewrite !log_lines_app, !durable_writes_app, !replies_sent_app.
  rewrite IH1, IH2, IH3, log_lines_logs, durable_writes_logs, replies_sent_logs.
  done.
Qed.

Lemma failed_lines_permutation (l : list (string * Reply)) :
  concat ((λ sr, carried_logs (reply_items sr.2) ++ [error_line sr.1]) <$> l)
  ≡ₚ (error_line <$> l.*1) ++ (l.*2 ≫= λ r, carried_logs (reply_items r)).
Proof.
  induction l as [|[s r] l IH]; [done|].
  cbn [fmap list_fmap concat fst snd mbind list_bind].
  rewrite IH, <- app_assoc. cbn [app].
  rewrite <- Permutation_middle. constructor.
  apply Permutation_app_swap_app.
Qed.

(** X16.  When every fetch reply is a failure whose items all have logs, the
    flow still completes.  Its log is then, block by block in the order of
    arrival, the log lines each reply carried followed by the error line of
    the signature it answered: up to order, one error line per requested
    signature and the carried lines.  Nothing has been stored or sent. *)
Theorem acpi_all_fetches_failed (self : DumpACPITable.self_t) loaded arrivals :
  let signatures := DumpACPITableArgs.table_signature_list (args self) in
  1 ≤ length signatures →
  arrival_order (length signatures) arrivals →
  Forall (λ a, reply_success a.2 = false ∧ with_logs (reply_items a.2))
    arrivals →
  ∃ final,
    ACPIFlow.run self ((0, loaded) :: arrivals) = inr final
    ∧ run_status final = Completed
    ∧ log_lines (trace final)
      = concat ((λ sr, carried_logs (reply_items sr.2) ++ [error_line sr.1])
                  <$> answered signatures arrivals)
    ∧ log_lines (trace final)
      ≡ₚ (error_line <$> signatures)
           ++ (arrivals.*2 ≫= λ r, carried_logs (reply_items r))
    ∧ durable_writes (trace final) = []
    ∧ replies_sent (trace final) = [].
Proof.
  intros signatures Hlen Horder Hfailed.
  assert (Hne : DumpACPITableArgs.table_signature_list (args self) ≠ []).
  { subst signatures. destruct (DumpACPITableArgs.table_signature_list _);
      cbn in Hlen; [lia | done]. }
  assert (Harrive : all_arrive (length signatures) arrivals).
  { apply all_arrive_iff. split; [done|].
    eapply Forall_impl; [exact Hfailed|].
    intros [i r] [Hs Hlogs]. cbn in *. split; [done|]. by rewrite Hs. }
  assert (Hfail : Forall (λ a, reply_success a.2 = false) arrivals).
  { eapply Forall_impl; [exact Hfailed|]. by intros a [? _]. }
  rewrite acpi_run_collecting by done.
  eexists. split; [reflexivity|].
  destruct (acpi_drain self arrivals (collecting self) signatures)
    as (Hstatus & _ & _); [done..|].
  split; [done|].
  rewrite (acpi_trace_of_arrivals self arrivals _ signatures) by done.
  rewrite failed_blocks by done.
  destruct (observe_fetch_calls self signatures) as (H1 & H2 & H3).
  destruct (observe_failed_blocks (answered signatures arrivals))
    as (H4 & H5 & H6).
  unfold collecting. cbn [trace]. fold signatures.
  rewrite !log_lines_app, !durable_writes_app, !replies_sent_app.
  change (log_lines (ECall ?c :: ?l)) with (log_lines l).
  change (durable_writes (ECall ?c :: ?l)) with (durable_writes l).
  change (replies_sent (ECall ?c :: ?l)) with (replies_sent l).
  rewrite H1, H2, H3, H4, H5, H6. cbn [app].
  split; [done|]. split; [|done].
  rewrite failed_lines_permutation.
  rewrite (answered_signatures arrivals signatures Harrive).
  by rewrite (answered_replies arrivals signatures Harrive).
Qed.

Lemma acpi_all_fetches_failed_witness :
  ∃ final,
    ACPIFlow.run example_acpi
      [(0, reply_ok []);
       (1, mkReply false "busy" [DumpACPITableResponse [] ["chipsec: busy"]]);
       (0, facp_failed)] = inr final
    ∧ run_status final = Completed
    ∧ log_lines (trace final)
      = concat ((λ sr, carried_logs (reply_items sr.2) ++ [error_line sr.1])
                  <$> answered ["FACP"; "DSDT"]
                        [(1, mkReply false "busy"
                               [DumpACPITableResponse [] ["chipsec: busy"]]);
                         (0, facp_failed)])
    ∧ log_lines (trace final)
      ≡ₚ (error_line <$> ["FACP"; "DSDT"])
           ++ ([(1, mkReply false "busy"
                      [DumpACPITableResponse [] ["chipsec: busy"]]);
                (0, facp_failed)].*2
               ≫= λ r, carried_logs (reply_items r))
    ∧ durable_writes (trace final) = []
    ∧ replies_sent (trace final) = [].
Proof.
  apply (acpi_all_fetches_failed example_acpi (reply_ok [])
           [(1, mkReply false "busy"
                  [DumpACPITableResponse [] ["chipsec: busy"]]);
            (0, facp_failed)]).
  - cbn. lia.
  - split; [cbn; lia|]. split; [cbn; lia|]. reflexivity.
  - constructor.
    + split; [reflexivity|]. constructor; [by eexists | constructor].
    + constructor; [|constructor]. split; [reflexivity | constructor].
Defined.

(** * Completed runs of DumpFlashImage *)

(** X10.  A run completes in two ways only.  Either the host was skipped, and
    then nothing was sent, no symlink was updated and no cleanup was
    dispatched; or the cleanup reply was successful, and then the run has sent
    the transferred file, pointed the symlink at it and dispatched the cleanup
    of the dumped path.  It never completes with the symlink updated and the
    temporary image not cleaned up. *)
Theorem flash_completed_runs (self : DumpFlashImage.self_t) replies :
  ∃ inst,
    FlashFlow.run self replies = Some inst
    ∧ (run_status inst = Completed →
       (symlink_updates (trace inst) = []
        ∧ cleanup_paths (trace inst) = []
        ∧ replies_sent (trace inst) = [])
       ∨ ∃ r1 r2 r3 r4 r5 rest p a,
           replies = r1 :: r2 :: r3 :: r4 :: r5 :: rest
           ∧ head (reply_items r3) ≫= path_attr = Some p
           ∧ head (reply_items r4) ≫= aff4path_attr = Some a
           ∧ reply_success r5 = true
           ∧ symlink_updates (trace inst) = [(spiflash self, a)]
           ∧ cleanup_paths (trace inst) = [p]
           ∧ replies_sent (trace inst) = [head (reply_items r4)]).
Proof.
  destruct (run_shape self replies) as (inst & Hrun & Hshape).
  exists inst. split; [done|]. intros Hdone.
  inversion Hshape; subst; cbn [run_status] in Hdone; try discriminate.
  - left. cbn [trace]. unfold skip_trace.
    rewrite replies_sent_app, replies_sent_dump_trace.
    by autorewrite with flash_trace.
  - right. exists r1, r2, r3, r4, r5, rest, p, a.
    do 4 (split; [done|]). cbn [trace].
    autorewrite with flash_trace. do 2 (split; [done|]).
    unfold collect_trace, transfer_trace.
    by rewrite !replies_sent_app, replies_sent_dump_trace.
Qed.

Lemma flash_completed_runs_witness :
  ∃ inst,
    FlashFlow.run example_flash successful_collection = Some inst
    ∧ run_status inst = Completed
    ∧ symlink_updates (trace inst)
      = [(spiflash example_flash, "aff4:/C.1000000000000000/fs/os/tmp/spi.bin")]
    ∧ cleanup_paths (trace inst) = ["/tmp/spi.bin"].
Proof.
  destruct (flash_completed_runs example_flash successful_collection)
    as (inst & Hrun & Hdone).
  exists inst. split; [done|].
  vm_compute in Hrun. injection Hrun as <-.
  split; [reflexivity|]. split; vm_compute; reflexivity.
Defined.
